(** * PhoneShop: the stored routines of the database script and the
      cart / search handlers of [static/js/main.js]

    The definitions come in three parts.

    - [SQL]: the tables the stored routines read and write, SQL's
      three-valued comparisons, the collation of the database, and the
      routines [UpdateProductRating], [GetPopularProducts] and the
      trigger [order_status_change_log].
    - [JS]: the values, strings and [parseInt] of the browser script, the
      page state the handlers touch, the handlers and their callbacks.
    - [Reports] and [Browser]: the routine [GetSalesStats], [debounce]
      and the listener of the search field, and the handlers that change
      the location.

    Definitions come first, the theorems about them follow. *)

From stdpp Require Import gmap strings list fin_maps.
From Stdlib Require Import ZArith Lia Sorted.

Local Open Scope Z_scope.

(* ===================================================================== *)
(** * Part I: the database script                                        *)
(* ===================================================================== *)

Module SQL.

(** ** SQL values and three-valued logic

    A nullable value is an [option]; [None] is NULL.  A condition evaluates
    to TRUE, FALSE or NULL ([option bool]); WHERE, ON and IF keep a row or
    take a branch only when the condition is TRUE. *)

Definition sql_eq (a b : option Z) : option bool :=
  match a, b with
  | Some x, Some y => Some (x =? y)
  | _, _ => None
  end.

Definition sql_ge (a b : option Z) : option bool :=
  match a, b with
  | Some x, Some y => Some (x >=? y)
  | _, _ => None
  end.

Definition sql_and (a b : option bool) : option bool :=
  match a, b with
  | Some false, _ | _, Some false => Some false
  | Some true, Some true => Some true
  | _, _ => None
  end.

Definition is_true (c : option bool) : bool :=
  match c with Some true => true | _ => false end.

(** ** Tables

    The tables are created by the framework's migrations; the script only
    names the columns it uses.  Money and ratings are fixed-point decimals
    with two fractional digits and are kept as their number of hundredths
    ([4.00] is [400]); datetimes are seconds on the server's clock. *)

Record catalog_review := {
  review_product_id : Z;          (* catalog_review.product_id *)
  review_rating : Z;              (* catalog_review.rating *)
  is_approved : bool              (* catalog_review.is_approved, 0 or 1 *)
}.

Record catalog_product := {
  id : Z;
  name : string;
  slug : string;
  price : Z;
  old_price : option Z;
  rating : Z;                     (* DECIMAL, hundredths *)
  reviews_count : Z;
  category_id : option Z;
  brand_id : option Z;
  is_active : bool
}.

Record catalog_category := { category_pk : Z; category_name : string }.
Record catalog_brand := { brand_pk : Z; brand_name : string }.

Record orders_orderitem := {
  item_pk : Z;                    (* orders_orderitem.id *)
  item_order_id : Z;
  item_product_id : Z;
  quantity : Z;
  item_price : Z
}.

Record orders_order := {
  order_pk : Z;                   (* orders_order.id *)
  user_id : option Z;
  status : option string;
  total_amount : Z;
  created_at : Z
}.

Record orders_orderlog := {
  order_id : Z;
  old_status : option string;
  new_status : option string;
  changed_by : option Z;
  changed_at : Z
}.

Record database := {
  products : list catalog_product;
  categories : list catalog_category;
  brands : list catalog_brand;
  reviews : list catalog_review;
  orderitems : list orders_orderitem;
  orders : list orders_order;
  orderlog : list orders_orderlog
}.

Definition set_reviews_rating (p : catalog_product) (r c : Z) : catalog_product :=
  {| id := id p; name := name p; slug := slug p; price := price p;
     old_price := old_price p; rating := r; reviews_count := c;
     category_id := category_id p; brand_id := brand_id p;
     is_active := is_active p |}.

Definition with_products (db : database) (ps : list catalog_product) : database :=
  {| products := ps; categories := categories db; brands := brands db;
     reviews := reviews db; orderitems := orderitems db; orders := orders db;
     orderlog := orderlog db |}.

(** ** UpdateProductRating

<<
  CREATE PROCEDURE UpdateProductRating(IN product_id INT)
  BEGIN
    DECLARE avg_rating DECIMAL(3,2);
    SELECT AVG(rating) INTO avg_rating FROM catalog_review
      WHERE product_id = product_id AND is_approved = 1;
    IF avg_rating IS NULL THEN SET avg_rating = 0.00; END IF;
    UPDATE catalog_product
      SET rating = ROUND(avg_rating, 2),
          reviews_count = (SELECT COUNT( * ) FROM catalog_review
                           WHERE product_id = product_id AND is_approved = 1)
      WHERE id = product_id;
  END
>>

    Inside a stored routine an identifier that is both a routine parameter
    and a column of the table resolves to the parameter.  In both WHERE
    clauses over [catalog_review] the two sides of [product_id = product_id]
    are therefore the parameter; the column [review_product_id] of the row
    is not read.  [review_filter] writes the condition as the server
    evaluates it. *)

Definition review_filter (product_id : option Z) (r : catalog_review) : bool :=
  is_true (sql_and (sql_eq product_id product_id) (Some (is_approved r))).

(** [n / d] rounded to the nearest integer, ties away from zero, for
    [0 < d]: the rounding of an exact quotient stored in a DECIMAL. *)
Definition round_div (n d : Z) : Z :=
  Z.sgn n * ((2 * Z.abs n + d) / (2 * d)).

Definition sum_ratings (rs : list catalog_review) : Z :=
  foldr (fun r acc => review_rating r + acc) 0 rs.

(** [AVG(rating)] over the selected rows, as stored into a variable with
    two fractional digits: NULL when no row is selected. *)
Definition select_avg (rs : list catalog_review) : option Z :=
  match rs with
  | [] => None
  | _ => Some (round_div (100 * sum_ratings rs) (Z.of_nat (length rs)))
  end.

(** A DECIMAL(3,2) holds -9.99 .. 9.99. *)
Definition fits_decimal_3_2 (h : Z) : bool := (-999 <=? h) && (h <=? 999).

(** The UPDATE on one row of [catalog_product]: the row is written when
    [id = product_id] is TRUE. *)
Definition update_row (product_id : option Z) (avg_rating cnt : Z)
  (p : catalog_product) : catalog_product :=
  if is_true (sql_eq (Some (id p)) product_id)
  then set_reviews_rating p avg_rating cnt
  else p.

(** The routine runs under the strict mode the script sets, so a value
    that does not fit [avg_rating] aborts the call ([None]) and nothing is
    written. *)
Definition UpdateProductRating (db : database) (product_id : option Z)
  : option database :=
  let selected := List.filter (review_filter product_id) (reviews db) in
  let avg_rating := default 0 (select_avg selected) in
  if fits_decimal_3_2 avg_rating then
    let cnt := Z.of_nat (length (List.filter (review_filter product_id) (reviews db))) in
    Some (with_products db (map (update_row product_id avg_rating cnt) (products db)))
  else None.

(** The database after [CALL UpdateProductRating(product_id)]. *)
Definition call_UpdateProductRating (db : database) (product_id : option Z)
  : database :=
  default db (UpdateProductRating db product_id).

Definition product_by_id (pid : Z) (db : database) : option catalog_product :=
  List.find (fun p => id p =? pid) (products db).

(** All approved reviews of the table, whatever product they are about. *)
Definition all_approved (db : database) : list catalog_review :=
  List.filter is_approved (reviews db).

(** *** The contract of the recompute, in the specification's words

    [rating = round(avg(rating of approved reviews), 2)] or [0.00] if
    none, [reviewsCount = count(approved reviews)], the reviews being
    those of the product.  These three definitions follow the
    specification, not the routine; the theorems compare the routine with
    them. *)

Definition spec_approved_reviews (pid : Z) (db : database) : list catalog_review :=
  List.filter (fun r => (review_product_id r =? pid) && is_approved r) (reviews db).

Definition spec_rating (pid : Z) (db : database) : Z :=
  default 0 (select_avg (spec_approved_reviews pid db)).

Definition spec_reviews_count (pid : Z) (db : database) : Z :=
  Z.of_nat (length (spec_approved_reviews pid db)).

(** ** GetPopularProducts

<<
  CREATE PROCEDURE GetPopularProducts(IN days_back INT, IN limit_count INT)
  BEGIN
    SELECT p.id, p.name, p.slug, p.price, p.old_price, p.rating,
           p.reviews_count, c.name as category_name, b.name as brand_name,
           COUNT(oi.id) as orders_count, SUM(oi.quantity) as total_sold
    FROM catalog_product p
    JOIN catalog_category c ON p.category_id = c.id
    JOIN catalog_brand b ON p.brand_id = b.id
    LEFT JOIN orders_orderitem oi ON p.id = oi.product_id
    LEFT JOIN orders_order o ON oi.order_id = o.id
         AND o.created_at >= DATE_SUB(NOW(), INTERVAL days_back DAY)
    WHERE p.is_active = 1
    GROUP BY p.id
    ORDER BY total_sold DESC
    LIMIT limit_count;
  END
>>
*)

Section Joins.
Context {A B : Type}.
Variable on : A -> B -> option bool.

Definition matches (a : A) (r : list B) : list B :=
  List.filter (fun b => is_true (on a b)) r.

(** [l JOIN r ON on]: every pair that satisfies the condition. *)
Definition inner_join (l : list A) (r : list B) : list (A * B) :=
  flat_map (fun a => map (pair a) (matches a r)) l.

(** [l LEFT JOIN r ON on]: a left row without a match is kept once, with
    NULL for the columns of [r]. *)
Definition left_join (l : list A) (r : list B) : list (A * option B) :=
  flat_map (fun a => match matches a r with
                     | [] => [(a, None)]
                     | ms => map (fun b => (a, Some b)) ms
                     end) l.
End Joins.

(** A row of the joined tables: [p], [c], [b], [oi], [o]. *)
Definition joined : Type :=
  catalog_product * catalog_category * catalog_brand
  * option orders_orderitem * option orders_order.

Definition j_p (j : joined) : catalog_product := j.1.1.1.1.
Definition j_c (j : joined) : catalog_category := j.1.1.1.2.
Definition j_b (j : joined) : catalog_brand := j.1.1.2.
Definition j_oi (j : joined) : option orders_orderitem := j.1.2.
Definition j_o (j : joined) : option orders_order := j.2.

Definition seconds_per_day : Z := 86400.

(** [DATE_SUB(now, INTERVAL days_back DAY)] *)
Definition date_sub_days (now days_back : Z) : Z := now - days_back * seconds_per_day.

(** The rows of [p JOIN c JOIN b LEFT JOIN oi]. *)
Definition popular_items (db : database)
  : list (catalog_product * catalog_category * catalog_brand
          * option orders_orderitem) :=
  let pc := inner_join (fun p c => sql_eq (category_id p) (Some (category_pk c)))
                       (products db) (categories db) in
  let pcb := inner_join (fun (x : catalog_product * catalog_category) b =>
                           sql_eq (brand_id x.1) (Some (brand_pk b)))
                        pc (brands db) in
  left_join (fun (x : catalog_product * catalog_category * catalog_brand) oi =>
               sql_eq (Some (id x.1.1)) (Some (item_product_id oi)))
            pcb (orderitems db).

(** The ON condition of [LEFT JOIN orders_order o]. *)
Definition order_on (now days_back : Z)
  (x : catalog_product * catalog_category * catalog_brand * option orders_orderitem)
  (o : orders_order) : option bool :=
  sql_and (sql_eq (item_order_id <$> x.2) (Some (order_pk o)))
          (sql_ge (Some (created_at o)) (Some (date_sub_days now days_back))).

Definition popular_from (db : database) (now days_back : Z) : list joined :=
  left_join (order_on now days_back) (popular_items db) (orders db).

(** GROUP BY: the groups in the order their keys first occur, each with its
    rows in the order of the input. *)
Fixpoint add_to_group {R} (k : Z) (r : R) (gs : list (Z * list R)) : list (Z * list R) :=
  match gs with
  | [] => [(k, [r])]
  | (k', g) :: gs' =>
      if k' =? k then (k', g ++ [r]) :: gs' else (k', g) :: add_to_group k r gs'
  end.

Definition group_by {R} (key : R -> Z) (rows : list R) : list (Z * list R) :=
  fold_left (fun gs r => add_to_group (key r) r gs) rows [].

(** COUNT(e) counts the rows where [e] is not NULL; SUM(e) adds them and
    is NULL when there is none. *)
Definition sql_count {R} (e : R -> option Z) (g : list R) : Z :=
  Z.of_nat (length (omap e g)).

Definition sql_sum {R} (e : R -> option Z) (g : list R) : option Z :=
  match omap e g with
  | [] => None
  | v :: vs => Some (foldr Z.add 0 (v :: vs))
  end.

Record popular_product := {
  pp_id : Z;
  pp_name : string;
  pp_slug : string;
  pp_price : Z;
  pp_old_price : option Z;
  pp_rating : Z;
  pp_reviews_count : Z;
  pp_category_name : string;
  pp_brand_name : string;
  orders_count : Z;
  total_sold : option Z
}.

(** The select list over one group; the columns of [p], [c] and [b] are
    taken from the first row of the group. *)
Definition select_group (first : joined) (g : list joined) : popular_product :=
  {| pp_id := id (j_p first);
     pp_name := name (j_p first);
     pp_slug := slug (j_p first);
     pp_price := price (j_p first);
     pp_old_price := old_price (j_p first);
     pp_rating := rating (j_p first);
     pp_reviews_count := reviews_count (j_p first);
     pp_category_name := category_name (j_c first);
     pp_brand_name := brand_name (j_b first);
     orders_count := sql_count (fun j => item_pk <$> j_oi j) g;
     total_sold := sql_sum (fun j => quantity <$> j_oi j) g |}.

Definition select_groups (gs : list (Z * list joined)) : list popular_product :=
  omap (fun kg => match kg.2 with
                  | [] => None
                  | first :: _ => Some (select_group first kg.2)
                  end) gs.

(** ORDER BY total_sold DESC: NULL sorts below every number, so it comes
    last.  The server leaves the order of equal keys open; the sort below
    keeps them in the order of the input. *)
Definition sold_gt (a b : option Z) : bool :=
  match a, b with
  | Some x, Some y => y <? x
  | Some _, None => true
  | None, _ => false
  end.

Fixpoint insert_desc (r : popular_product) (l : list popular_product)
  : list popular_product :=
  match l with
  | [] => [r]
  | x :: l' =>
      if sold_gt (total_sold x) (total_sold r) then x :: insert_desc r l'
      else r :: x :: l'
  end.

Definition order_by_total_sold_desc (l : list popular_product) : list popular_product :=
  foldr insert_desc [] l.

(** WHERE, GROUP BY, the select list, ORDER BY and LIMIT over the joined
    rows.  [limit_count] is the number of rows asked for; the server
    rejects a negative LIMIT, so the model takes a natural number. *)
Definition report (rows : list joined) (limit_count : nat) : list popular_product :=
  let rows := List.filter (fun j => is_active (j_p j)) rows in
  let groups := group_by (fun j => id (j_p j)) rows in
  take limit_count (order_by_total_sold_desc (select_groups groups)).

Definition GetPopularProducts (db : database) (now : Z) (days_back : Z)
  (limit_count : nat) : list popular_product :=
  report (popular_from db now days_back) limit_count.

(** [x] may stand before [y] in descending order of [total_sold]: [y]
    does not sell more than [x]. *)
Definition not_below (x y : popular_product) : Prop :=
  sold_gt (total_sold y) (total_sold x) = false.

(** A joined row with the columns of [o] set to NULL. *)
Definition without_order (j : joined) : joined := (j.1, None).

Definition group_without_order (kg : Z * list joined) : Z * list joined :=
  (kg.1, map without_order kg.2).

(** The quantity the report should show for a product: the quantities of
    its order items whose order was created within the last [days_back]
    days.  This definition follows the claim, not the routine. *)
Definition spec_recent_sold (db : database) (now days_back : Z) (pid : Z) : Z :=
  foldr Z.add 0
    (map quantity
       (List.filter
          (fun oi => (item_product_id oi =? pid)
                     && existsb (fun o => (order_pk o =? item_order_id oi)
                                          && (created_at o >=? date_sub_days now days_back))
                                (orders db))
          (orderitems db))).

(** ** Trigger order_status_change_log

<<
  CREATE TRIGGER order_status_change_log
  AFTER UPDATE ON orders_order
  FOR EACH ROW
  BEGIN
    IF OLD.status != NEW.status THEN
      INSERT INTO orders_orderlog
        (order_id, old_status, new_status, changed_by, changed_at)
      VALUES (NEW.id, OLD.status, NEW.status, NEW.user_id, NOW());
    END IF;
  END
>>

    The comparison of two strings is the one of the column's collation,
    which belongs to the table definition and is taken as a parameter. *)

(** The row of the INSERT. *)
Definition log_row (now : Z) (OLD NEW : orders_order) : orders_orderlog :=
  {| order_id := order_pk NEW; old_status := status OLD;
     new_status := status NEW; changed_by := user_id NEW; changed_at := now |}.

Section Trigger.
Variable status_eqb : string -> string -> bool.

Definition sql_str_neq (a b : option string) : option bool :=
  match a, b with
  | Some x, Some y => Some (negb (status_eqb x y))
  | _, _ => None
  end.

Definition order_status_change_log (now : Z) (OLD NEW : orders_order)
  (log : list orders_orderlog) : list orders_orderlog :=
  if is_true (sql_str_neq (status OLD) (status NEW))
  then log ++ [log_row now OLD NEW]
  else log.
End Trigger.

(** ** The collation of the status column

<<
  CREATE DATABASE IF NOT EXISTS phone_shop_db
    CHARACTER SET utf8mb4 COLLATE utf8mb4_unicode_ci;
>>

    The script makes utf8mb4_unicode_ci the default collation of the
    database, and no statement of it gives [orders_order.status] another
    one.  Under this collation letters are compared without regard to
    case, and trailing spaces do not count.  [unicode_ci_eqb] is that
    comparison on text made of ASCII letters, digits and spaces, which is
    where it is used below; what the collation does with accents and
    other characters is not modelled. *)
Definition fold_case (c : Ascii.ascii) : Ascii.ascii :=
  let n := Ascii.N_of_ascii c in
  if ((65 <=? n) && (n <=? 90))%N then Ascii.ascii_of_N (n + 32) else c.

Fixpoint fold_cases (s : string) : string :=
  match s with
  | EmptyString => EmptyString
  | String c s' => String (fold_case c) (fold_cases s')
  end.

Fixpoint trim_trailing_spaces (s : string) : string :=
  match s with
  | EmptyString => EmptyString
  | String c s' =>
      match trim_trailing_spaces s' with
      | EmptyString =>
          if (Ascii.N_of_ascii c =? 32)%N then EmptyString
          else String c EmptyString
      | t => String c t
      end
  end.

Definition unicode_ci_eqb (a b : string) : bool :=
  String.eqb (fold_cases (trim_trailing_spaces a))
             (fold_cases (trim_trailing_spaces b)).

(** ** Sample rows

    A small catalogue used by the examples: two phones of one category and
    one brand, and their reviews and orders. *)

Definition phone (pid : Z) (nm : string) (active : bool) : catalog_product :=
  {| id := pid; name := nm; slug := nm; price := 1999000; old_price := None;
     rating := 0; reviews_count := 0; category_id := Some 1;
     brand_id := Some 1; is_active := active |}.

Definition review (pid r : Z) (approved : bool) : catalog_review :=
  {| review_product_id := pid; review_rating := r; is_approved := approved |}.

Definition catalogue (rs : list catalog_review) : database :=
  {| products := [phone 7 "pixel" true; phone 8 "nokia" true];
     categories := [ {| category_pk := 1; category_name := "phones" |} ];
     brands := [ {| brand_pk := 1; brand_name := "acme" |} ];
     reviews := rs; orderitems := []; orders := []; orderlog := [] |}.

(** Product 7 has the approved reviews 4, 5, 3; product 8 has one approved
    review rated 1. *)
Definition two_reviewed_products : database :=
  catalogue [review 7 4 true; review 7 5 true; review 7 3 true; review 8 1 true].

(** Product 7 has no review at all; product 8 has one approved review
    rated 5. *)
Definition one_unreviewed_product : database :=
  catalogue [review 8 5 true].

(** Product 7 alone has reviews: 5, 4, 3 approved and one not approved. *)
Definition one_reviewed_product : database :=
  catalogue [review 7 5 true; review 7 4 true; review 7 1 false; review 7 3 true].

(** Product 7 has the approved reviews 5, 4, 3; product 8 has one approved
    review rated 1. *)
Definition reviewed_5_4_3_and_another : database :=
  catalogue [review 7 5 true; review 7 4 true; review 7 3 true; review 8 1 true].

(** An order before and after its status is set to shipped. *)
Definition pending_order : orders_order :=
  {| order_pk := 10; user_id := Some 5; status := Some "pending";
     total_amount := 5997000; created_at := 0 |}.

Definition shipped_order : orders_order :=
  {| order_pk := 10; user_id := Some 5; status := Some "shipped";
     total_amount := 5997000; created_at := 0 |}.

(** The same order with its status written in capitals, and with no
    status. *)
Definition capitals_order : orders_order :=
  {| order_pk := 10; user_id := Some 5; status := Some "PENDING";
     total_amount := 5997000; created_at := 0 |}.

Definition no_status_order : orders_order :=
  {| order_pk := 10; user_id := Some 5; status := None;
     total_amount := 5997000; created_at := 0 |}.

(** One order of three units of product 7, placed 100 days before
    [sample_now]. *)
Definition sample_now : Z := 200 * seconds_per_day.

Definition old_order_db : database :=
  {| products := [phone 7 "pixel" true; phone 8 "nokia" true];
     categories := [ {| category_pk := 1; category_name := "phones" |} ];
     brands := [ {| brand_pk := 1; brand_name := "acme" |} ];
     reviews := [];
     orderitems := [ {| item_pk := 1; item_order_id := 10; item_product_id := 7;
                        quantity := 3; item_price := 1999000 |} ];
     orders := [ {| order_pk := 10; user_id := Some 5; status := Some "completed";
                    total_amount := 5997000;
                    created_at := 100 * seconds_per_day |} ];
     orderlog := [] |}.

End SQL.

(* ===================================================================== *)
(** * Part II: static/js/main.js                                         *)
(* ===================================================================== *)

Module JS.

(** ** Strings, numbers, values

    A string is its sequence of UTF-16 code units, so that [length] is the
    script's [.length].  [utf16] turns a literal of this file (UTF-8) into
    that sequence. *)

Abbreviation jsstring := (list N).

Fixpoint utf16_of_bytes (bs : list N) : jsstring :=
  match bs with
  | [] => []
  | b0 :: r0 =>
      if (b0 <? 128)%N then b0 :: utf16_of_bytes r0
      else match r0 with
      | [] => [b0]
      | b1 :: r1 =>
          if (b0 <? 224)%N then
            (N.land b0 31 * 64 + N.land b1 63)%N :: utf16_of_bytes r1
          else match r1 with
          | [] => [b0; b1]
          | b2 :: r2 =>
              if (b0 <? 240)%N then
                (N.land b0 15 * 4096 + N.land b1 63 * 64 + N.land b2 63)%N
                  :: utf16_of_bytes r2
              else match r2 with
              | [] => [b0; b1; b2]
              | b3 :: r3 =>
                  let cp := (N.land b0 7 * 262144 + N.land b1 63 * 4096
                             + N.land b2 63 * 64 + N.land b3 63)%N in
                  let v := (cp - 65536)%N in
                  (55296 + v / 1024)%N :: (56320 + v mod 1024)%N
                    :: utf16_of_bytes r3
              end
          end
      end
  end.

Definition utf16 (s : string) : jsstring :=
  utf16_of_bytes (map Ascii.N_of_ascii (String.list_ascii_of_string s)).

(** The double quote, for the literals of the script that contain one. *)
Definition dq : string := String (Ascii.ascii_of_N 34) EmptyString.

(** A number is NaN or an integer.  The script only ever computes with the
    results of [parseInt] and the constant 1; [Int z] is exact for
    [|z| <= 2^53], beyond which the browser rounds to the nearest double
    (no comparison made below is affected by that rounding). *)
Inductive number := NaN | Int (z : Z).

Inductive value :=
| undefined
| null
| Bool (b : bool)
| Num (n : number)
| Str (s : jsstring).

Global Instance number_eq_dec : EqDecision number.
Proof. solve_decision. Defined.
Global Instance value_eq_dec : EqDecision value.
Proof. solve_decision. Defined.

Definition number_truthy (n : number) : bool :=
  match n with NaN => false | Int z => negb (z =? 0) end.

(** ToBoolean *)
Definition truthy (v : value) : bool :=
  match v with
  | undefined | null => false
  | Bool b => b
  | Num n => number_truthy n
  | Str s => match s with [] => false | _ => true end
  end.

(** [a || b] *)
Definition or_else (a b : value) : value := if truthy a then a else b.

(** [a < b] on numbers: false when either side is NaN. *)
Definition num_lt (a b : number) : bool :=
  match a, b with Int x, Int y => x <? y | _, _ => false end.

Definition num_add (a b : number) : number :=
  match a, b with Int x, Int y => Int (x + y) | _, _ => NaN end.

Definition num_sub (a b : number) : number :=
  match a, b with Int x, Int y => Int (x - y) | _, _ => NaN end.

(** ** parseInt(string), without a radix

    Leading white space is skipped, then an optional sign; a [0x] / [0X]
    prefix selects radix 16, otherwise the radix is 10; the longest prefix
    of digits is the result, NaN when it is empty. *)

Definition is_white_space (c : N) : bool :=
  ((9 <=? c) && (c <=? 13) || (c =? 32) || (c =? 160) || (c =? 5760)
   || (8192 <=? c) && (c <=? 8202) || (c =? 8232) || (c =? 8233)
   || (c =? 8239) || (c =? 8287) || (c =? 12288) || (c =? 65279))%N.

Fixpoint skip_white_space (s : jsstring) : jsstring :=
  match s with
  | c :: s' => if is_white_space c then skip_white_space s' else s
  | [] => []
  end.

Definition digit_value (radix : Z) (c : N) : option Z :=
  let c := Z.of_N c in
  let v := if (48 <=? c) && (c <=? 57) then Some (c - 48)
           else if (97 <=? c) && (c <=? 122) then Some (c - 87)
           else if (65 <=? c) && (c <=? 90) then Some (c - 55)
           else None in
  match v with
  | Some d => if d <? radix then Some d else None
  | None => None
  end.

(** The value of the longest prefix of digits, given the value [acc] of
    the digits read so far ([None] while none was read). *)
Fixpoint parse_digits (radix : Z) (s : jsstring) (acc : option Z) : option Z :=
  match s with
  | [] => acc
  | c :: s' =>
      match digit_value radix c with
      | Some d => parse_digits radix s' (Some (default 0 acc * radix + d))
      | None => acc
      end
  end.

Definition parseInt (input : jsstring) : number :=
  let s := skip_white_space input in
  let '(sign, s) := match s with
                    | 45%N :: s' => (-1, s')
                    | 43%N :: s' => (1, s')
                    | _ => (1, s)
                    end in
  let '(radix, s) := match s with
                     | 48%N :: 120%N :: s' => (16, s')
                     | 48%N :: 88%N :: s' => (16, s')
                     | _ => (10, s)
                     end in
  match parse_digits radix s None with
  | None => NaN
  | Some m => Int (sign * m)
  end.

(** [parseInt(v)] for a value: the argument is converted to a string
    first.  The text of an integer (below [10^21]) parses back to that
    integer; the texts of [undefined], [null], [true], [false] and [NaN]
    do not start with a digit. *)
Definition parseInt_value (v : value) : number :=
  match v with
  | Str s => parseInt s
  | Num n => n
  | undefined | null | Bool _ => NaN
  end.

(** ** The page

    The part of the document the handlers read and write: the elements
    they are bound to, the alerts appended to the body, the suggestion
    box, the cart counter, the scheduled timeouts, the requests handed to
    [$.ajax], and the number of page reloads asked for. *)

Record element := {
  disabled : bool;                (* prop('disabled') *)
  classes : gset string;
  html : jsstring;
  dataset : gmap string value;    (* what .data(key) returns *)
  val : jsstring                  (* .val() of an input *)
}.

Definition set_disabled (b : bool) (e : element) : element :=
  {| disabled := b; classes := classes e; html := html e;
     dataset := dataset e; val := val e |}.
Definition addClass (c : string) (e : element) : element :=
  {| disabled := disabled e; classes := classes e ∪ {[c]}; html := html e;
     dataset := dataset e; val := val e |}.
Definition removeClass (c : string) (e : element) : element :=
  {| disabled := disabled e; classes := classes e ∖ {[c]}; html := html e;
     dataset := dataset e; val := val e |}.
Definition set_html (h : jsstring) (e : element) : element :=
  {| disabled := disabled e; classes := classes e; html := h;
     dataset := dataset e; val := val e |}.

Record notification := {
  message : value;
  kind : string;                  (* alert-success, alert-error, ... *)
  removed : bool
}.

(** The closures handed to [setTimeout] and to [$.ajax], with the
    variables they capture. *)
Inductive timer :=
| RestoreLabel (button : N) (originalText : jsstring)
| FadeOutNotification (index : nat).

Inductive callbacks :=
| AddToCartCallbacks (button : N) (originalText : jsstring)
| WishlistCallbacks (button : N)
| CompareCallbacks (button : N)
| UpdateQuantityCallbacks
| RemoveCallbacks
| CartCountCallbacks
| SuggestionsCallbacks.

Record request := {
  url : string;
  method : string;
  data : list (string * value);
  on_done : callbacks
}.

Record page := {
  elements : gmap N element;
  notifications : list notification;
  suggestions_visible : bool;
  suggestions_html : jsstring;
  cart_count : value;
  timers : list (Z * timer);
  requests : list request;
  reloads : nat
}.

Definition with_elements (f : gmap N element -> gmap N element) (p : page) : page :=
  {| elements := f (elements p); notifications := notifications p;
     suggestions_visible := suggestions_visible p;
     suggestions_html := suggestions_html p; cart_count := cart_count p;
     timers := timers p; requests := requests p; reloads := reloads p |}.
Definition with_notifications (f : list notification -> list notification) (p : page) : page :=
  {| elements := elements p; notifications := f (notifications p);
     suggestions_visible := suggestions_visible p;
     suggestions_html := suggestions_html p; cart_count := cart_count p;
     timers := timers p; requests := requests p; reloads := reloads p |}.
Definition with_suggestions (v : bool) (h : jsstring) (p : page) : page :=
  {| elements := elements p; notifications := notifications p;
     suggestions_visible := v; suggestions_html := h;
     cart_count := cart_count p;
     timers := timers p; requests := requests p; reloads := reloads p |}.
Definition with_cart_count (v : value) (p : page) : page :=
  {| elements := elements p; notifications := notifications p;
     suggestions_visible := suggestions_visible p;
     suggestions_html := suggestions_html p; cart_count := v;
     timers := timers p; requests := requests p; reloads := reloads p |}.
Definition setTimeout (t : timer) (delay : Z) (p : page) : page :=
  {| elements := elements p; notifications := notifications p;
     suggestions_visible := suggestions_visible p;
     suggestions_html := suggestions_html p; cart_count := cart_count p;
     timers := timers p ++ [(delay, t)]; requests := requests p;
     reloads := reloads p |}.
Definition ajax (r : request) (p : page) : page :=
  {| elements := elements p; notifications := notifications p;
     suggestions_visible := suggestions_visible p;
     suggestions_html := suggestions_html p; cart_count := cart_count p;
     timers := timers p; requests := requests p ++ [r];
     reloads := reloads p |}.
Definition location_reload (p : page) : page :=
  {| elements := elements p; notifications := notifications p;
     suggestions_visible := suggestions_visible p;
     suggestions_html := suggestions_html p; cart_count := cart_count p;
     timers := timers p; requests := requests p; reloads := S (reloads p) |}.

(** jQuery on the element [n]: a setter changes it in place (and does
    nothing when the node is not in the document); [.html()], [.val()] and
    [.data(key)] read it.  The handlers are called with [this] bound to a
    node of the document. *)
Definition on_element (n : N) (f : element -> element) : page -> page :=
  with_elements (alter f n).

Definition get_html (n : N) (p : page) : jsstring :=
  default [] (html <$> elements p !! n).

Definition get_data (n : option N) (key : string) (p : page) : value :=
  default undefined (e ← n; el ← elements p !! e; dataset el !! key).

Definition hasClass (n : N) (c : string) (p : page) : bool :=
  match elements p !! n with
  | Some e => bool_decide (c ∈ classes e)
  | None => false
  end.

(** ** Constants of the script *)

(** [$('meta[name="csrf-token"]').attr('content')]: the content of the
    tag, [undefined] when the page has none. *)
Definition read_csrf_token (meta_content : option jsstring) : value :=
  match meta_content with Some s => Str s | None => undefined end.

Definition CART_COUNT_URL : string := "{% url " +:+ dq +:+ "cart:get_cart_count" +:+ dq +:+ " %}".
Definition ADD_TO_CART_URL : string := "{% url " +:+ dq +:+ "cart:add_to_cart" +:+ dq +:+ " %}".
Definition UPDATE_CART_URL : string := "{% url " +:+ dq +:+ "cart:update_item_quantity" +:+ dq +:+ " %}".
Definition REMOVE_FROM_CART_URL : string := "{% url " +:+ dq +:+ "cart:remove_item" +:+ dq +:+ " %}".
Definition WISHLIST_URL : string := "{% url " +:+ dq +:+ "accounts:add_to_wishlist" +:+ dq +:+ " %}".
Definition COMPARE_URL : string := "{% url " +:+ dq +:+ "accounts:add_to_compare" +:+ dq +:+ " %}".
Definition SUGGESTIONS_URL : string := "/catalog/search/suggestions/".

(** ** Helpers of the script *)

Definition showNotification (msg : value) (type : string) (p : page) : page :=
  let index := length (notifications p) in
  setTimeout (FadeOutNotification index) 5000
    (with_notifications
       (fun l => l ++ [ {| message := msg; kind := "alert-" +:+ type; removed := false |} ])
       p).

Definition spinner : jsstring :=
  utf16 ("<div class=" +:+ dq +:+ "spinner" +:+ dq +:+ "></div>").

Definition showSpinner (n : N) : page -> page :=
  on_element n (set_html spinner).

Definition updateCartCount (p : page) : page :=
  ajax {| url := CART_COUNT_URL; method := "GET"; data := [];
          on_done := CartCountCallbacks |} p.

Section Script.
(** The token is read once, when the script is loaded. *)
Variable CSRF_TOKEN : value.

(** *** The objects handed to [$.ajax] by the cart handlers *)
Definition add_to_cart_request (productId quantity : value) (button : N)
  (originalText : jsstring) : request :=
  {| url := ADD_TO_CART_URL; method := "POST";
     data := [("product_id", productId); ("quantity", quantity);
              ("csrfmiddlewaretoken", CSRF_TOKEN)];
     on_done := AddToCartCallbacks button originalText |}.

Definition update_request (itemId : value) (quantity : number) : request :=
  {| url := UPDATE_CART_URL; method := "POST";
     data := [("item_id", itemId); ("quantity", Num quantity);
              ("csrfmiddlewaretoken", CSRF_TOKEN)];
     on_done := UpdateQuantityCallbacks |}.

Definition remove_request (itemId : value) : request :=
  {| url := REMOVE_FROM_CART_URL; method := "POST";
     data := [("item_id", itemId); ("csrfmiddlewaretoken", CSRF_TOKEN)];
     on_done := RemoveCallbacks |}.

(** *** handleAddToCart

    [this] is the button clicked; [closest] is
    [button.closest('[data-product-id]')], if there is such a node. *)
Definition handleAddToCart (this : N) (closest : option N) (p : page) : page :=
  let button := this in
  let productId := or_else (get_data (Some button) "product-id" p)
                           (get_data closest "product-id" p) in
  let quantity := or_else (get_data (Some button) "quantity" p) (Num (Int 1)) in
  let originalText := get_html button p in
  let p := on_element button (set_disabled true) p in
  let p := on_element button (addClass "loading") p in
  let p := showSpinner button p in
  ajax (add_to_cart_request productId quantity button originalText) p.

(** *** handleAddToWishlist, handleAddToCompare *)
Definition handleAddToWishlist (this : N) (p : page) : page :=
  let productId := get_data (Some this) "product-id" p in
  ajax {| url := WISHLIST_URL; method := "POST";
          data := [("product_id", productId);
                   ("csrfmiddlewaretoken", CSRF_TOKEN)];
          on_done := WishlistCallbacks this |} p.

Definition handleAddToCompare (this : N) (p : page) : page :=
  let productId := get_data (Some this) "product-id" p in
  ajax {| url := COMPARE_URL; method := "POST";
          data := [("product_id", productId);
                   ("csrfmiddlewaretoken", CSRF_TOKEN)];
          on_done := CompareCallbacks this |} p.

(** *** updateCartItemQuantity, removeFromCart

    [confirmed] is the answer of the user to the [confirm] dialog. *)
Definition updateCartItemQuantity (itemId : value) (quantity : number) (p : page) : page :=
  ajax (update_request itemId quantity) p.

Definition removeFromCart (confirmed : bool) (itemId : value) (p : page) : page :=
  if confirmed then ajax (remove_request itemId) p else p.

(** *** handleQuantityChange, handleQuantityInputChange

    [cartItem] is [closest('.cart-item, .product-card')] of the control,
    if there is such a node. *)
Definition item_id_of (cartItem : option N) (p : page) : value :=
  or_else (get_data cartItem "item-id" p) (get_data cartItem "product-id" p).

Definition currentQuantity_of (this : N) (p : page) : number :=
  let n := parseInt_value (get_data (Some this) "current-qty" p) in
  if number_truthy n then n else Int 1.

Definition newQuantity_of_click (this : N) (p : page) : number :=
  let isIncrease := hasClass this "increase-btn" p in
  let currentQuantity := currentQuantity_of this p in
  if isIncrease then num_add currentQuantity (Int 1)
  else num_sub currentQuantity (Int 1).

Definition handleQuantityChange (confirmed : bool) (this : N)
  (cartItem : option N) (p : page) : page :=
  let itemId := item_id_of cartItem p in
  let newQuantity := newQuantity_of_click this p in
  if num_lt newQuantity (Int 1) then removeFromCart confirmed itemId p
  else updateCartItemQuantity itemId newQuantity p.

Definition get_val (n : N) (p : page) : jsstring :=
  default [] (val <$> elements p !! n).

Definition newQuantity_of_input (this : N) (p : page) : number :=
  parseInt (get_val this p).

Definition handleQuantityInputChange (confirmed : bool) (this : N)
  (cartItem : option N) (p : page) : page :=
  let itemId := item_id_of cartItem p in
  let newQuantity := newQuantity_of_input this p in
  if num_lt newQuantity (Int 1) then removeFromCart confirmed itemId p
  else updateCartItemQuantity itemId newQuantity p.

(** *** handleSearchInput

<<
  function handleSearchInput(e) {
      const query = $(this).val();
      if (query.length < 2) {
          $('.search-suggestions').hide();
          return;
      }
      $.ajax({ url: '/catalog/search/suggestions/', method: 'GET',
               data: { q: query }, success: ... });
  }
>>

    The handler reads its receiver.  [this] is [Some n] when the function
    is called with the element [n] as receiver, and [None] when it is
    called as a plain function: the script is in strict mode, so [this]
    is [undefined] there.  [$(undefined)] is the empty collection, and
    [.val()] of the empty collection is [undefined]. *)
Definition val_of (this : option N) (p : page) : option jsstring :=
  match this with
  | Some n => Some (get_val n p)
  | None => None
  end.

(** A call ends by returning or by throwing; either way it leaves a page
    behind.  Reading [query.length] of [undefined] throws a TypeError,
    before the handler has done anything. *)
Inductive ended :=
  | Returned (p : page)
  | TypeError (p : page).

Definition page_after (r : ended) : page :=
  match r with
  | Returned p => p
  | TypeError p => p
  end.

Definition handleSearchInput (this : option N) (p : page) : ended :=
  match val_of this p with
  | None => TypeError p
  | Some query =>
      if (length query <? 2)%nat then
        Returned (with_suggestions false (suggestions_html p) p)
      else
        Returned (ajax {| url := SUGGESTIONS_URL; method := "GET";
                          data := [("q", Str query)];
                          on_done := SuggestionsCallbacks |} p)
  end.
End Script.

(** ** The callbacks

    The answer of the server, as the callbacks read it: the scalar
    properties of the JSON object, and the two lists the suggestion
    endpoint returns. *)
Record suggestion := { suggestion_slug : jsstring; suggestion_name : jsstring }.

Record response := {
  props : gmap string value;
  products : list suggestion;
  brands : list suggestion
}.

(** [response.key]: [undefined] for a property the object does not have. *)
Definition prop (r : response) (key : string) : value :=
  default undefined (props r !! key).

(** How a request ends: jQuery calls [success] with the parsed answer, or
    [error] when the transport or the server failed. *)
Inductive outcome := Success (r : response) | Error.

Definition restore_button (button : N) (originalText : jsstring) (p : page) : page :=
  let p := on_element button (removeClass "loading") p in
  let p := on_element button (set_disabled false) p in
  on_element button (set_html originalText) p.

Definition addToCart_success (button : N) (originalText : jsstring)
  (r : response) (p : page) : page :=
  if truthy (prop r "success") then
    let p := showNotification (Str (utf16 "Товар добавлен в корзину")) "success" p in
    let p := updateCartCount p in
    let p := on_element button (removeClass "btn-primary") p in
    let p := on_element button (addClass "btn-success") p in
    let p := on_element button
               (set_html (utf16 ("<i class=" +:+ dq +:+ "fas fa-check" +:+ dq
                                 +:+ "></i> Добавлено"))) p in
    setTimeout (RestoreLabel button originalText) 2000 p
  else
    let p := showNotification
               (or_else (prop r "message") (Str (utf16 "Ошибка при добавлении товара")))
               "error" p in
    restore_button button originalText p.

Definition addToCart_error (button : N) (originalText : jsstring) (p : page) : page :=
  let p := showNotification (Str (utf16 "Произошла ошибка при добавлении товара"))
             "error" p in
  restore_button button originalText p.

Definition wishlist_success (button : N) (r : response) (p : page) : page :=
  if bool_decide (prop r "status" = Str (utf16 "added")) then
    let p := on_element button (removeClass "btn-outline-danger") p in
    let p := on_element button (addClass "btn-danger") p in
    let p := on_element button
               (set_html (utf16 ("<i class=" +:+ dq +:+ "fas fa-heart" +:+ dq +:+ "></i>"))) p in
    showNotification (Str (utf16 "Товар добавлен в избранное")) "success" p
  else if bool_decide (prop r "status" = Str (utf16 "removed")) then
    let p := on_element button (removeClass "btn-danger") p in
    let p := on_element button (addClass "btn-outline-danger") p in
    let p := on_element button
               (set_html (utf16 ("<i class=" +:+ dq +:+ "far fa-heart" +:+ dq +:+ "></i>"))) p in
    showNotification (Str (utf16 "Товар удален из избранного")) "info" p
  else p.

Definition compare_success (button : N) (r : response) (p : page) : page :=
  if bool_decide (prop r "status" = Str (utf16 "added")) then
    let p := on_element button (removeClass "btn-outline-info") p in
    let p := on_element button (addClass "btn-info") p in
    showNotification (Str (utf16 "Товар добавлен в сравнение")) "success" p
  else if bool_decide (prop r "status" = Str (utf16 "removed")) then
    let p := on_element button (removeClass "btn-info") p in
    let p := on_element button (addClass "btn-outline-info") p in
    showNotification (Str (utf16 "Товар удален из сравнения")) "info" p
  else if truthy (prop r "error") then
    showNotification (prop r "error") "warning" p
  else p.

Definition reload_or_notify (fallback : string) (r : response) (p : page) : page :=
  if truthy (prop r "success") then location_reload p
  else showNotification (or_else (prop r "message") (Str (utf16 fallback))) "error" p.

Definition suggestion_items (prefix : string) (l : list suggestion) : jsstring :=
  flat_map (fun x =>
              utf16 ("<div class=" +:+ dq +:+ "suggestion-item" +:+ dq
                     +:+ " data-url=" +:+ dq +:+ prefix)
              ++ suggestion_slug x ++ utf16 ("/" +:+ dq +:+ ">")
              ++ suggestion_name x ++ utf16 "</div>") l.

Definition suggestion_group (title prefix : string) (l : list suggestion) : jsstring :=
  match l with
  | [] => []
  | _ => utf16 ("<div class=" +:+ dq +:+ "suggestion-group" +:+ dq +:+ "><h6>"
                +:+ title +:+ "</h6>")
         ++ suggestion_items prefix l ++ utf16 "</div>"
  end.

Definition displaySearchSuggestions (r : response) (p : page) : page :=
  let h := suggestion_group "Товары" "/catalog/product/" (products r)
           ++ suggestion_group "Бренды" "/catalog/brand/" (brands r) in
  match h with
  | [] => with_suggestions false (suggestions_html p) p
  | _ => with_suggestions true h p
  end.

Definition success (cb : callbacks) (r : response) (p : page) : page :=
  match cb with
  | AddToCartCallbacks button originalText => addToCart_success button originalText r p
  | WishlistCallbacks button => wishlist_success button r p
  | CompareCallbacks button => compare_success button r p
  | UpdateQuantityCallbacks => reload_or_notify "Ошибка при обновлении количества" r p
  | RemoveCallbacks => reload_or_notify "Ошибка при удалении товара" r p
  | CartCountCallbacks => with_cart_count (or_else (prop r "count") (Num (Int 0))) p
  | SuggestionsCallbacks => displaySearchSuggestions r p
  end.

Definition error (cb : callbacks) (p : page) : page :=
  match cb with
  | AddToCartCallbacks button originalText => addToCart_error button originalText p
  | WishlistCallbacks _ =>
      showNotification (Str (utf16 "Ошибка при работе с избранным")) "error" p
  | CompareCallbacks _ =>
      showNotification (Str (utf16 "Ошибка при работе с сравнением")) "error" p
  | UpdateQuantityCallbacks =>
      showNotification (Str (utf16 "Произошла ошибка при обновлении количества")) "error" p
  | RemoveCallbacks =>
      showNotification (Str (utf16 "Произошла ошибка при удалении товара")) "error" p
  | CartCountCallbacks => p       (* console.log only *)
  | SuggestionsCallbacks => p     (* no error callback *)
  end.

(** The request [req] ends with [o]: jQuery runs the matching callback on
    the page as it is then. *)
Definition complete (req : request) (o : outcome) (p : page) : page :=
  match o with
  | Success r => success (on_done req) r p
  | Error => error (on_done req) p
  end.

Definition run_timer (t : timer) (p : page) : page :=
  match t with
  | RestoreLabel button originalText =>
      let p := on_element button (removeClass "btn-success") p in
      let p := on_element button (addClass "btn-primary") p in
      on_element button (set_html originalText) p
  | FadeOutNotification i =>
      with_notifications
        (alter (fun n => {| message := message n; kind := kind n; removed := true |}) i) p
  end.

(** An add-to-cart request ends in failure when the transport fails or
    the answer does not report success. *)
Definition failed (o : outcome) : bool :=
  match o with
  | Error => true
  | Success r => negb (truthy (prop r "success"))
  end.

(** The add-to-cart button while its request is in flight, and after the
    request has failed: the composition of the setters the handler and
    its callbacks apply. *)
Definition in_flight (b : element) : element :=
  set_html spinner (addClass "loading" (set_disabled true b)).

Definition restored (originalText : jsstring) (b : element) : element :=
  set_html originalText (set_disabled false (removeClass "loading" b)).

(** ** The events bound by [initializeEventHandlers] that change the cart,
    the wishlist or the comparison list *)
Inductive mutation :=
| AddToCart (this : N) (closest : option N)
| UpdateQuantity (itemId : value) (quantity : number)
| RemoveItem (confirmed : bool) (itemId : value)
| ClickQuantityButton (confirmed : bool) (this : N) (cartItem : option N)
| ChangeQuantityInput (confirmed : bool) (this : N) (cartItem : option N)
| ToggleWishlist (this : N)
| ToggleCompare (this : N).

Definition perform (CSRF_TOKEN : value) (m : mutation) (p : page) : page :=
  match m with
  | AddToCart this closest => handleAddToCart CSRF_TOKEN this closest p
  | UpdateQuantity itemId quantity => updateCartItemQuantity CSRF_TOKEN itemId quantity p
  | RemoveItem confirmed itemId => removeFromCart CSRF_TOKEN confirmed itemId p
  | ClickQuantityButton confirmed this cartItem =>
      handleQuantityChange CSRF_TOKEN confirmed this cartItem p
  | ChangeQuantityInput confirmed this cartItem =>
      handleQuantityInputChange CSRF_TOKEN confirmed this cartItem p
  | ToggleWishlist this => handleAddToWishlist CSRF_TOKEN this p
  | ToggleCompare this => handleAddToCompare CSRF_TOKEN this p
  end.

(** The requests a step hands to [$.ajax]. *)
Definition issued (before after : page) : list request :=
  drop (length (requests before)) (requests after).

(** The value sent under a key of the request body. *)
Definition field (key : string) (r : request) : option value :=
  snd <$> List.find (fun kv => bool_decide (kv.1 = key)) (data r).

(** ** A sample cart page

    Node 1 is an add-to-cart button of product 42; node 2 is the cart line
    of item 9, with its decrement button 3 (current quantity 1), its
    increment button 4 and its quantity field 5; node 6 is the search
    field. *)

Definition node (cls : list string) (h : string) (ds : list (string * value))
  (v : string) : element :=
  {| disabled := false; classes := list_to_set cls; html := utf16 h;
     dataset := list_to_map ds; val := utf16 v |}.

Definition sample_elements : gmap N element :=
  list_to_map
    [ (1%N, node ["btn"; "btn-primary"; "add-to-cart"] "В корзину"
                 [("product-id", Num (Int 42))] "");
      (2%N, node ["cart-item"] "" [("item-id", Num (Int 9))] "");
      (3%N, node ["quantity-btn"; "decrease-btn"] "-" [("current-qty", Num (Int 1))] "");
      (4%N, node ["quantity-btn"; "increase-btn"] "+" [("current-qty", Num (Int 1))] "");
      (5%N, node ["quantity-input"] "" [] "0");
      (6%N, node [] "" [] "я") ].

Definition sample_page : page :=
  {| elements := sample_elements; notifications := [];
     suggestions_visible := true; suggestions_html := [];
     cart_count := Num (Int 1); timers := []; requests := []; reloads := 0 |}.

Definition sample_token : value := read_csrf_token (Some (utf16 "t0k3n")).

(** A page with nothing but a search field, node 1, holding [query]. *)
Definition search_page (query : string) : page :=
  {| elements := {[ 1%N := node [] "" [] query ]}; notifications := [];
     suggestions_visible := false; suggestions_html := [];
     cart_count := undefined; timers := []; requests := []; reloads := 0 |}.

End JS.

(* ===================================================================== *)
(** * Part III: the rest of the script and of main.js                    *)
(* ===================================================================== *)

Module Reports.
Import SQL.

(** The rows of [p JOIN c JOIN b], and of these LEFT JOINed with [oi]. *)
Abbreviation pcb_row := (catalog_product * catalog_category * catalog_brand)%type.
Abbreviation item_row := (pcb_row * option orders_orderitem)%type.

(** [gs] are the groups of GROUP BY [key] over the rows [done]: one group
    per key, none empty, each holding the rows of its key in the order of
    the input. *)
Definition grouped {R} (key : R -> Z) (done : list R) (gs : list (Z * list R)) : Prop :=
  List.NoDup (map fst gs)
  /\ (forall k g, In (k, g) gs ->
        g <> [] /\ g = List.filter (fun r => key r =? k) done)
  /\ (forall r, In r done -> In (key r) (map fst gs)).

(** ** GetSalesStats

<<
  CREATE PROCEDURE GetSalesStats(IN start_date DATE, IN end_date DATE)
  BEGIN
    SELECT DATE(o.created_at) as sale_date,
           COUNT(DISTINCT o.id) as orders_count,
           COUNT(DISTINCT o.user_id) as unique_customers,
           SUM(o.total_amount) as total_revenue,
           AVG(o.total_amount) as avg_order_value
    FROM orders_order o
    WHERE o.created_at BETWEEN start_date AND end_date
      AND o.status IN ('completed', 'shipped')
    GROUP BY DATE(o.created_at)
    ORDER BY sale_date;
  END
>>

    A DATE is the number of its day; compared with a datetime it stands
    for 00:00:00 of that day.  [DATE(t)] is the day of the datetime [t]. *)

Definition datetime_of_date (d : Z) : Z := d * seconds_per_day.
Definition DATE (t : Z) : Z := t / seconds_per_day.

Definition sql_le (a b : option Z) : option bool := sql_ge b a.

(** [x BETWEEN lo AND hi] is [x >= lo AND x <= hi]. *)
Definition sql_between (x lo hi : option Z) : option bool :=
  sql_and (sql_ge x lo) (sql_le x hi).

Record sales_row := {
  sale_date : Z;
  day_orders_count : Z;           (* orders_count *)
  unique_customers : Z;
  total_revenue : option Z;       (* hundredths *)
  avg_order_value : option Z      (* millionths: four more fractional digits *)
}.

(** AVG over a column with two fractional digits has six. *)
Definition sql_avg (vs : list Z) : option Z :=
  match vs with
  | [] => None
  | _ => Some (round_div (10000 * foldr Z.add 0 vs) (Z.of_nat (length vs)))
  end.

Section SalesStats.
Variable status_eqb : string -> string -> bool.

(** [s IN (v1, v2, ...)]: NULL when [s] is NULL. *)
Definition sql_in (s : option string) (vs : list string) : option bool :=
  match s with
  | Some x => Some (existsb (status_eqb x) vs)
  | None => None
  end.

Definition sales_where (start_date end_date : Z) (o : orders_order) : bool :=
  is_true (sql_and
             (sql_between (Some (created_at o))
                          (Some (datetime_of_date start_date))
                          (Some (datetime_of_date end_date)))
             (sql_in (status o) ["completed"; "shipped"])).

Definition select_day (kg : Z * list orders_order) : sales_row :=
  {| sale_date := kg.1;
     day_orders_count := Z.of_nat (length (remove_dups (map order_pk kg.2)));
     unique_customers := Z.of_nat (length (remove_dups (omap user_id kg.2)));
     total_revenue := sql_sum (fun o => Some (total_amount o)) kg.2;
     avg_order_value := sql_avg (map total_amount kg.2) |}.

Fixpoint insert_by_date (r : sales_row) (l : list sales_row) : list sales_row :=
  match l with
  | [] => [r]
  | x :: l' =>
      if sale_date x <? sale_date r then x :: insert_by_date r l'
      else r :: x :: l'
  end.

Definition order_by_sale_date (l : list sales_row) : list sales_row :=
  foldr insert_by_date [] l.

Definition GetSalesStats (db : database) (start_date end_date : Z) : list sales_row :=
  let rows := List.filter (sales_where start_date end_date) (orders db) in
  let groups := group_by (fun o => DATE (created_at o)) rows in
  order_by_sale_date (map select_day groups).

(** ** The trigger, for each row of an UPDATE

    [updated] are the rows an UPDATE statement changes, each with its old
    and its new content, in the order the server visits them; NOW() is
    the same for all of them. *)
Definition for_each_row (now : Z) (updated : list (orders_order * orders_order))
  (log : list orders_orderlog) : list orders_orderlog :=
  fold_left (fun lg ch => order_status_change_log status_eqb now ch.1 ch.2 lg)
            updated log.

(** A log row that records a change between two statuses the comparison
    of the column tells apart. *)
Definition records_change (row : orders_orderlog) : Prop :=
  exists a b, old_status row = Some a /\ new_status row = Some b
              /\ status_eqb a b = false.
End SalesStats.

(** [a] is the row of an earlier day than [b]. *)
Definition earlier (a b : sales_row) : Prop := sale_date a < sale_date b.

Definition with_orders (db : database) (os : list orders_order) : database :=
  {| products := products db; categories := categories db; brands := brands db;
     reviews := reviews db; orderitems := orderitems db; orders := os;
     orderlog := orderlog db |}.

Definition sum_Z (l : list Z) : Z := foldr Z.add 0 l.

(** Three orders of day 10 and day 11: two completed, one cancelled. *)
Definition order_at (pk : Z) (user : option Z) (st : string) (amount t : Z) : orders_order :=
  {| order_pk := pk; user_id := user; status := Some st;
     total_amount := amount; created_at := t |}.

Definition sales_db : database :=
  {| products := []; categories := []; brands := []; reviews := [];
     orderitems := [];
     orders := [ order_at 1 (Some 5) "completed" 10000 (11 * seconds_per_day);
                 order_at 2 (Some 5) "shipped" 5000 (10 * seconds_per_day + 3600);
                 order_at 3 (Some 6) "cancelled" 7000 (10 * seconds_per_day + 7200);
                 order_at 4 None "completed" 2500 (10 * seconds_per_day + 9000);
                 order_at 5 (Some 6) "completed" 900 (11 * seconds_per_day + 1) ];
     orderlog := [] |}.

End Reports.

Module Browser.
Import JS.

(** ** debounce

<<
  function debounce(func, wait) {
      let timeout;
      return function executedFunction(...args) {
          const later = function() {
              clearTimeout(timeout);
              func(...args);
          };
          clearTimeout(timeout);
          timeout = setTimeout(later, wait);
      };
  }
>>

    The state of one debounced function: the variable [timeout], the
    timers of the browser that are still to fire (oldest first, each with
    its id, the time it is due and the arguments its closure [later] has
    captured), the clock, and the calls of [func] made so far. *)

Section Debounce.
Context {A : Type}.
Variable wait : Z.

Record debounced := {
  timeout : option nat;
  active : list (nat * (Z * A));
  next_id : nat;
  clock : Z;
  calls : list A
}.

Definition debounce : debounced :=
  {| timeout := None; active := []; next_id := 0; clock := 0; calls := [] |}.

(** [clearTimeout(id)]: nothing happens for [undefined] or for a timer
    that has fired already. *)
Definition clearTimeout (id : option nat) (l : list (nat * (Z * A)))
  : list (nat * (Z * A)) :=
  match id with
  | Some i => List.filter (fun t => negb (t.1 =? i)%nat) l
  | None => l
  end.

Definition executedFunction (args : A) (s : debounced) : debounced :=
  let l := clearTimeout (timeout s) (active s) in
  let id := next_id s in
  {| timeout := Some id;
     active := l ++ [(id, (clock s + wait, args))];
     next_id := S id;
     clock := clock s;
     calls := calls s |}.

(** The closure [later] of a call with [args]. *)
Definition later (args : A) (s : debounced) : debounced :=
  {| timeout := timeout s;
     active := clearTimeout (timeout s) (active s);
     next_id := next_id s;
     clock := clock s;
     calls := calls s ++ [args] |}.

(** The browser runs the timers that are due, oldest first; a timer is
    removed from the active ones when it fires. *)
Fixpoint run_due (fuel : nat) (s : debounced) : debounced :=
  match fuel with
  | O => s
  | S fuel' =>
      match List.find (fun t => t.2.1 <=? clock s) (active s) with
      | None => s
      | Some (id, (_, args)) =>
          run_due fuel'
            (later args
               {| timeout := timeout s;
                  active := List.filter (fun t => negb (t.1 =? id)%nat) (active s);
                  next_id := next_id s; clock := clock s; calls := calls s |})
      end
  end.

(** [dt] milliseconds pass. *)
Definition elapse (dt : Z) (s : debounced) : debounced :=
  run_due (length (active s))
    {| timeout := timeout s; active := active s; next_id := next_id s;
       clock := clock s + dt; calls := calls s |}.


(** Between two calls at most the timer of the last call is active, and
    [timeout] names it. *)
Definition settled (s : debounced) : Prop :=
  active s = []
  \/ exists id due args, timeout s = Some id /\ active s = [(id, (due, args))].
End Debounce.

(** ** The listener of the search field

<<
  $('#search-input').on('input', debounce(handleSearchInput, 300));
>>

    jQuery calls the listener, [executedFunction], with the field as
    receiver and the event as argument.  [executedFunction] hands its
    arguments on to [later] and nothing else, and [later] runs
    [func(...args)]: the handler is called as a plain function, without
    a receiver.  [func_call] is that call for one entry of [calls];
    [handleSearchInput] does not read its argument [e]. *)
Definition func_call {A : Type} (args : A) (p : page) : ended :=
  handleSearchInput None p.

(** One [input] event [e] on a page where the listener has just been
    installed, and the [dt] milliseconds after it: how the calls of the
    handler end. *)
Definition search_field_input {A : Type} (e : A) (dt : Z) (p : page)
  : list ended :=
  map (fun args => func_call args p)
      (calls (elapse dt (executedFunction 300 e debounce))).

(** ** handleSortChange, handleFilterChange

    The handlers read the current location, change its query parameters
    and navigate to the result.  A location is kept as the text before the
    query, the list of query parameters and the fragment. *)

Record URL := {
  before_query : jsstring;
  searchParams : list (jsstring * jsstring);
  fragment : jsstring
}.

(** [searchParams.delete(name)] removes every parameter of that name. *)
Definition params_delete (name : jsstring) (l : list (jsstring * jsstring))
  : list (jsstring * jsstring) :=
  List.filter (fun kv => negb (bool_decide (kv.1 = name))) l.

(** [searchParams.set(name, value)] overwrites the first parameter of that
    name and removes the others; it appends one when there is none. *)
Fixpoint params_set (name value : jsstring) (l : list (jsstring * jsstring))
  : list (jsstring * jsstring) :=
  match l with
  | [] => [(name, value)]
  | kv :: l' =>
      if bool_decide (kv.1 = name) then (name, value) :: params_delete name l'
      else kv :: params_set name value l'
  end.

Definition with_params (u : URL) (l : list (jsstring * jsstring)) : URL :=
  {| before_query := before_query u; searchParams := l; fragment := fragment u |}.

(** What [.val()] gives for a form control: the text of an input or of
    the chosen option, [null] for a select with no option chosen, an
    array of texts for a select with [multiple]. *)
Inductive control_value :=
  | ValText (s : jsstring)
  | ValNull
  | ValArray (l : list jsstring).

(** [if (value)]: the empty text and [null] are falsy, an array is
    truthy also when it is empty. *)
Definition val_truthy (v : control_value) : bool :=
  match v with
  | ValText [] => false
  | ValText _ => true
  | ValNull => false
  | ValArray _ => true
  end.

Fixpoint join (l : list jsstring) : jsstring :=
  match l with
  | [] => []
  | [s] => s
  | s :: l' => s ++ utf16 "," ++ join l'
  end.

(** The text a value is turned into when it is passed where a string is
    asked for. *)
Definition ToString (v : control_value) : jsstring :=
  match v with
  | ValText s => s
  | ValNull => utf16 "null"
  | ValArray l => join l
  end.

(** The arguments of [searchParams.set] and [searchParams.delete] are
    scalar value strings: a surrogate that is not part of a pair is
    replaced by U+FFFD. *)
Definition is_lead (c : N) : bool := ((55296 <=? c) && (c <=? 56319))%N.
Definition is_trail (c : N) : bool := ((56320 <=? c) && (c <=? 57343))%N.

Fixpoint USVString (s : jsstring) : jsstring :=
  match s with
  | [] => []
  | c :: s' =>
      if is_lead c then
        match s' with
        | d :: s'' => if is_trail d then c :: d :: USVString s''
                      else 65533%N :: USVString s'
        | [] => [65533%N]
        end
      else if is_trail c then 65533%N :: USVString s'
      else c :: USVString s'
  end.

(** [sortValue] is the value of the select; the result is the location
    the browser is sent to. *)
Definition handleSortChange (sortValue : control_value) (location : URL) : URL :=
  with_params location
    (params_set (utf16 "sort") (USVString (ToString sortValue))
       (searchParams location)).

(** A field of the filter form, as [find('input, select')] yields it:
    its [name] attribute, if it has one, and its value. *)
Record control := { field_name : option jsstring; field_value : control_value }.

(** The text of a name: a missing attribute reads [undefined]. *)
Definition name_text (f : control) : jsstring :=
  USVString (default (utf16 "undefined") (field_name f)).

Definition filter_step (l : list (jsstring * jsstring)) (f : control)
  : list (jsstring * jsstring) :=
  if val_truthy (field_value f)
  then params_set (name_text f) (USVString (ToString (field_value f))) l
  else params_delete (name_text f) l.

Definition handleFilterChange (fields : list control) (location : URL) : URL :=
  with_params location (fold_left filter_step fields (searchParams location)).

(** The parameters named [n]. *)
Abbreviation named n := (fun kv : jsstring * jsstring => bool_decide (kv.1 = n)).

(** What the field [f] asks for: no parameter of its name when its value
    is falsy, one with the text of its value otherwise. *)
Definition asked (f : control) : list (jsstring * jsstring) :=
  if val_truthy (field_value f)
  then [(name_text f, USVString (ToString (field_value f)))]
  else [].

(** A catalogue page sorted by price, and a filter form with a brand, an
    empty price field, a field without a name, a select with nothing
    chosen and a select with two options chosen. *)
Definition catalogue_url : URL :=
  {| before_query := utf16 "/catalog/";
     searchParams := [(utf16 "page", utf16 "2"); (utf16 "sort", utf16 "price");
                      (utf16 "max", utf16 "500"); (utf16 "sort", utf16 "name")];
     fragment := [] |}.

Definition filter_form : list control :=
  [ {| field_name := Some (utf16 "brand"); field_value := ValText (utf16 "acme") |};
    {| field_name := Some (utf16 "max"); field_value := ValText [] |};
    {| field_name := None; field_value := ValText (utf16 "on") |};
    {| field_name := Some (utf16 "os"); field_value := ValNull |};
    {| field_name := Some (utf16 "ram"); field_value := ValArray [utf16 "4"; utf16 "8"] |} ].

End Browser.

(* ===================================================================== *)
(** * Theorems: the rating recompute                                     *)
(* ===================================================================== *)

Module Rating.
Import SQL.

(** With a product id that is not NULL the condition of both WHERE
    clauses keeps every approved review, whatever product it is about. *)
Lemma review_filter_not_null (pid : Z) (r : catalog_review) :
  review_filter (Some pid) r = is_approved r.
Proof.
  unfold review_filter, sql_eq. rewrite Z.eqb_refl.
  by destruct (is_approved r).
Qed.

Lemma review_filter_null (r : catalog_review) : review_filter None r = false.
Proof. unfold review_filter; simpl. by destruct (is_approved r). Qed.

Lemma filter_ext_eq {A} (f g : A -> bool) (l : list A) :
  (forall x, f x = g x) -> List.filter f l = List.filter g l.
Proof. intros H. induction l as [|x l IH]; simpl; [done|]. by rewrite H, IH. Qed.

Lemma selected_all_approved (db : database) (pid : Z) :
  List.filter (review_filter (Some pid)) (reviews db) = all_approved db.
Proof. apply filter_ext_eq, review_filter_not_null. Qed.

Lemma reviews_after_update (db db' : database) (pid : option Z) :
  UpdateProductRating db pid = Some db' -> reviews db' = reviews db.
Proof.
  unfold UpdateProductRating.
  destruct (fits_decimal_3_2 _); [|done]. by intros [= <-].
Qed.

Lemma set_reviews_rating_idem (p : catalog_product) (r c : Z) :
  set_reviews_rating (set_reviews_rating p r c) r c = set_reviews_rating p r c.
Proof. done. Qed.

Lemma update_rows_idem (pid : option Z) (r c : Z) (ps : list catalog_product) :
  map (update_row pid r c) (map (update_row pid r c) ps) = map (update_row pid r c) ps.
Proof.
  rewrite map_map. apply map_ext. intros p. unfold update_row.
  destruct (is_true (sql_eq (Some (id p)) pid)) eqn:E.
  - change (id (set_reviews_rating p r c)) with (id p). by rewrite E.
  - by rewrite E.
Qed.

(** The routine writes the average and the count of all approved reviews
    into the product named by the argument. *)
Lemma UpdateProductRating_writes (db : database) (pid : Z) :
  let a := default 0 (select_avg (all_approved db)) in
  UpdateProductRating db (Some pid) =
    if fits_decimal_3_2 a then
      Some (with_products db
              (map (fun p => if id p =? pid
                             then set_reviews_rating p a (Z.of_nat (length (all_approved db)))
                             else p)
                   (products db)))
    else None.
Proof.
  unfold UpdateProductRating. rewrite selected_all_approved. simpl.
  destruct (fits_decimal_3_2 _); [|done].
  do 2 f_equal. apply map_ext. intros p. unfold update_row, sql_eq, is_true.
  by destruct (id p =? pid).
Qed.

(** When no approved review is about another product, the routine computes
    what the contract asks for. *)
Lemma UpdateProductRating_alone (db : database) (pid : Z) :
  (forall r, In r (reviews db) -> is_approved r = true -> review_product_id r = pid) ->
  all_approved db = spec_approved_reviews pid db.
Proof.
  intros H. unfold all_approved, spec_approved_reviews.
  induction (reviews db) as [|r l IH]; simpl; [done|].
  destruct (is_approved r) eqn:E; simpl.
  - rewrite (H r (or_introl eq_refl) E), Z.eqb_refl. simpl.
    f_equal. apply IH. intros r' Hin. apply H. by right.
  - rewrite andb_false_r. apply IH. intros r' Hin. apply H. by right.
Qed.

(** C1, at a catalogue with two reviewed products.  Product 7 has the
    approved reviews 4, 5 and 3, so the contract asks for rating 4.00 and
    3 reviews; [CALL UpdateProductRating(7)] also averages the review of
    product 8 and writes 3.25 and 4. *)
Theorem UpdateProductRating_mixes_products :
  let db' := call_UpdateProductRating two_reviewed_products (Some 7) in
  (rating <$> product_by_id 7 db' = Some 325
   /\ reviews_count <$> product_by_id 7 db' = Some 4)
  /\ spec_rating 7 two_reviewed_products = 400
  /\ spec_reviews_count 7 two_reviewed_products = 3.
Proof. vm_compute. auto. Qed.

(** C2, at two catalogues.  Where product 7 has no review and product 8
    has one approved review rated 5, the contract asks for 0.00 and 0 and
    [CALL UpdateProductRating(7)] writes 5.00 and 1.  Where product 7 has
    exactly the approved reviews 5, 4, 3 and product 8 has one rated 1, the
    contract asks for 4.00 and 3 and the call writes 3.25 and 4. *)
Theorem UpdateProductRating_unreviewed_product :
  let db' := call_UpdateProductRating one_unreviewed_product (Some 7) in
  let db2 := call_UpdateProductRating reviewed_5_4_3_and_another (Some 7) in
  (spec_approved_reviews 7 one_unreviewed_product = []
   /\ rating <$> product_by_id 7 db' = Some 500
   /\ reviews_count <$> product_by_id 7 db' = Some 1)
  /\ (map review_rating (spec_approved_reviews 7 reviewed_5_4_3_and_another) = [5; 4; 3]
      /\ rating <$> product_by_id 7 db2 = Some 325
      /\ reviews_count <$> product_by_id 7 db2 = Some 4).
Proof. vm_compute. auto. Qed.

(** The two examples of the contract hold when the table has no approved
    review of another product. *)
Lemma UpdateProductRating_5_4_3 :
  let db' := call_UpdateProductRating one_reviewed_product (Some 7) in
  map review_rating (spec_approved_reviews 7 one_reviewed_product) = [5; 4; 3]
  /\ rating <$> product_by_id 7 db' = Some 400
  /\ reviews_count <$> product_by_id 7 db' = Some 3.
Proof. vm_compute. auto. Qed.

Lemma UpdateProductRating_no_reviews :
  let db' := call_UpdateProductRating (catalogue []) (Some 7) in
  rating <$> product_by_id 7 db' = Some 0
  /\ reviews_count <$> product_by_id 7 db' = Some 0.
Proof. vm_compute. auto. Qed.

(** C4: the recompute is idempotent.  The routine does not write to the
    reviews, so a second call computes the same two numbers and writes
    them over themselves; a call that is rejected changes nothing, and is
    rejected again. *)
Theorem UpdateProductRating_idempotent (db : database) (pid : option Z) :
  call_UpdateProductRating (call_UpdateProductRating db pid) pid
  = call_UpdateProductRating db pid.
Proof.
  unfold call_UpdateProductRating.
  destruct (UpdateProductRating db pid) as [db'|] eqn:E; simpl.
  - assert (Hr : reviews db' = reviews db) by (eapply reviews_after_update; eauto).
    revert E. unfold UpdateProductRating. rewrite Hr.
    destruct (fits_decimal_3_2 _) eqn:F; [|done].
    intros [= <-]. simpl.
    unfold with_products; simpl. by rewrite update_rows_idem.
  - by rewrite E.
Qed.

End Rating.

(* ===================================================================== *)
(** * Theorems: the popular-products report                              *)
(* ===================================================================== *)

Module Popular.
Import SQL.

(** ** The date condition has no effect

    The condition on [created_at] belongs to the ON clause of a LEFT JOIN:
    an order item whose order is too old keeps its row, with NULL for the
    columns of [o], and the select list never reads [o]. *)

Section LeftJoin.
Context {A B : Type}.
Variable on : A -> B -> option bool.

Lemma left_join_cons (a : A) (l : list A) (r : list B) :
  left_join on (a :: l) r
  = match matches on a r with
    | [] => [(a, None)]
    | ms => map (fun b => (a, Some b)) ms
    end ++ left_join on l r.
Proof. done. Qed.

Lemma left_join_at_most_one (l : list A) (r : list B) :
  (forall a, In a l -> (length (matches on a r) <= 1)%nat) ->
  map fst (left_join on l r) = l.
Proof.
  intros H. induction l as [|a l IH]; [done|].
  rewrite left_join_cons, map_app, IH.
  - assert (Ha := H a (or_introl eq_refl)).
    destruct (matches on a r) as [|b [|b' ms]]; simpl in *; [done|done|lia].
  - intros a' Hin. apply H. by right.
Qed.

Lemma in_left_join (l : list A) (r : list B) (x : A * option B) :
  In x (left_join on l r) -> In x.1 l.
Proof.
  unfold left_join. rewrite in_flat_map. intros (a & Ha & Hx).
  destruct (matches on a r) as [|b ms].
  - destruct Hx as [<-|[]]. done.
  - apply in_map_iff in Hx as (b' & <- & _). done.
Qed.

Lemma in_inner_join (l : list A) (r : list B) (x : A * B) :
  In x (inner_join on l r) -> In x.1 l.
Proof.
  unfold inner_join. rewrite in_flat_map. intros (a & Ha & Hx).
  apply in_map_iff in Hx as (b' & <- & _). done.
Qed.
End LeftJoin.

Lemma filter_all_false {B} (P : B -> bool) (l : list B) :
  (forall b, In b l -> P b = false) -> List.filter P l = [].
Proof.
  induction l as [|b l IH]; simpl; intros H; [done|].
  rewrite (H b (or_introl eq_refl)). apply IH. intros b' Hb. apply H. by right.
Qed.

(** A key column without duplicates: at most one row has a given key. *)
Lemma filter_key_at_most_one {B} (f : B -> Z) (P : B -> bool) (k : Z) (l : list B) :
  List.NoDup (map f l) ->
  (forall b, P b = true -> f b = k) ->
  (length (List.filter P l) <= 1)%nat.
Proof.
  intros Hnd HP. induction l as [|b l IH]; simpl; [lia|].
  inversion Hnd as [|? ? Hnotin Hnd']; subst.
  destruct (P b) eqn:Eb; [|by apply IH].
  rewrite filter_all_false; [simpl; lia|].
  intros b' Hb'. destruct (P b') eqn:Eb'; [|done].
  exfalso. apply Hnotin. apply in_map_iff. exists b'. split; [|done].
  rewrite (HP b Eb), (HP b' Eb'). done.
Qed.

Lemma map_without_order (l : list joined) :
  map without_order l = map (fun x => (x, None)) (map fst l).
Proof. by rewrite map_map. Qed.

Lemma filter_without_order (l : list joined) :
  List.filter (fun j => is_active (j_p j)) (map without_order l)
  = map without_order (List.filter (fun j => is_active (j_p j)) l).
Proof.
  induction l as [|j l IH]; simpl; [done|].
  change (j_p (without_order j)) with (j_p j).
  destruct (is_active (j_p j)); simpl; by rewrite IH.
Qed.

Lemma add_to_group_without_order (k : Z) (r : joined) (gs : list (Z * list joined)) :
  add_to_group k (without_order r) (map group_without_order gs)
  = map group_without_order (add_to_group k r gs).
Proof.
  induction gs as [|[k' g] gs IH]; simpl; [done|].
  destruct (k' =? k); simpl.
  - unfold group_without_order at 2; simpl. by rewrite map_app.
  - by rewrite IH.
Qed.

Lemma group_by_without_order (l : list joined) :
  group_by (fun j => id (j_p j)) (map without_order l)
  = map group_without_order (group_by (fun j => id (j_p j)) l).
Proof.
  unfold group_by.
  change (@nil (Z * list joined)) with (map group_without_order []) at 1.
  generalize (@nil (Z * list joined)) as acc.
  induction l as [|j l IH]; intros acc; simpl; [done|].
  change (j_p (without_order j)) with (j_p j).
  rewrite add_to_group_without_order. apply IH.
Qed.

Lemma omap_without_order {V} (e : option orders_orderitem -> option V) (g : list joined) :
  omap (fun j => e (j_oi j)) (map without_order g) = omap (fun j => e (j_oi j)) g.
Proof.
  apply list_omap_ext. induction g as [|j g IH]; constructor; done.
Qed.

Lemma select_group_without_order (first : joined) (g : list joined) :
  select_group (without_order first) (map without_order g) = select_group first g.
Proof.
  unfold select_group, sql_count, sql_sum.
  rewrite (omap_without_order (fmap item_pk)), (omap_without_order (fmap quantity)).
  done.
Qed.

Lemma select_groups_without_order (gs : list (Z * list joined)) :
  select_groups (map group_without_order gs) = select_groups gs.
Proof.
  unfold select_groups. apply list_omap_ext.
  induction gs as [|[k g] gs IH]; constructor; [|done].
  destruct g as [|first g]; simpl; [done|].
  f_equal. apply (select_group_without_order first (first :: g)).
Qed.

Lemma report_without_order (rows : list joined) (n : nat) :
  report (map without_order rows) n = report rows n.
Proof.
  unfold report.
  by rewrite filter_without_order, group_by_without_order, select_groups_without_order.
Qed.

Lemma order_on_key (now d : Z)
  (x : catalog_product * catalog_category * catalog_brand * option orders_orderitem)
  (o : orders_order) :
  is_true (order_on now d x o) = true ->
  exists oi, x.2 = Some oi /\ order_pk o = item_order_id oi.
Proof.
  unfold order_on, sql_ge. destruct x.2 as [oi|]; simpl.
  - destruct (item_order_id oi =? order_pk o) eqn:E;
      destruct (created_at o >=? date_sub_days now d); simpl; try done.
    intros _. exists oi. split; [done|]. symmetry. by apply Z.eqb_eq.
  - by destruct (created_at o >=? date_sub_days now d).
Qed.

Lemma popular_from_fst (db : database) (now d : Z) :
  List.NoDup (map order_pk (orders db)) ->
  map fst (popular_from db now d) = popular_items db.
Proof.
  intros Hnd. unfold popular_from.
  apply left_join_at_most_one. intros x _. unfold matches.
  destruct x.2 as [oi|] eqn:Ex.
  - apply (filter_key_at_most_one order_pk _ (item_order_id oi)); [done|].
    intros o Ho. apply order_on_key in Ho as (oi' & Hoi & ->). congruence.
  - rewrite filter_all_false; [simpl; lia|].
    intros o _. destruct (is_true (order_on now d x o)) eqn:Ho; [|done].
    apply order_on_key in Ho as (oi' & Hoi & _). congruence.
Qed.

(** Whatever [days_back] is, the report is the same, as long as the
    primary key of [orders_order] has no duplicates. *)
Theorem GetPopularProducts_ignores_days_back (db : database) (now d1 d2 : Z) (n : nat) :
  List.NoDup (map order_pk (orders db)) ->
  GetPopularProducts db now d1 n = GetPopularProducts db now d2 n.
Proof.
  intros Hnd.
  unfold GetPopularProducts.
  rewrite <- (report_without_order (popular_from db now d1)).
  rewrite <- (report_without_order (popular_from db now d2)).
  by rewrite !map_without_order, !popular_from_fst.
Qed.

(** C7, at a database with one order of three units of product 7 placed
    100 days ago: [CALL GetPopularProducts(30, 10)] reports 3 units sold
    for product 7, although no order item of it belongs to an order of the
    last 30 days. *)
Theorem GetPopularProducts_counts_old_orders :
  map (fun r => (pp_id r, orders_count r, total_sold r))
      (GetPopularProducts old_order_db sample_now 30 10)
  = [(7, 1, Some 3); (8, 0, None)]
  /\ spec_recent_sold old_order_db sample_now 30 7 = 0.
Proof. vm_compute. done. Qed.

(** ** What the report does guarantee: active products only, descending
    order, at most [limit_count] rows *)

Lemma GetPopularProducts_limit (db : database) (now d : Z) (n : nat) :
  (length (GetPopularProducts db now d n) <= n)%nat.
Proof. unfold GetPopularProducts, report. rewrite length_take. lia. Qed.

Lemma sold_gt_asym (a b : option Z) : sold_gt a b = true -> sold_gt b a = false.
Proof.
  destruct a as [x|], b as [y|]; simpl; try done.
  intros H. apply Z.ltb_lt in H. apply Z.ltb_ge. lia.
Qed.

Lemma insert_desc_head (r x : popular_product) (l : list popular_product) :
  not_below x r -> HdRel not_below x l -> HdRel not_below x (insert_desc r l).
Proof.
  intros Hr Hl. destruct l as [|y l]; simpl.
  - by constructor.
  - destruct (sold_gt (total_sold y) (total_sold r)); constructor; [|done].
    by inversion Hl.
Qed.

Lemma insert_desc_sorted (r : popular_product) (l : list popular_product) :
  Sorted not_below l -> Sorted not_below (insert_desc r l).
Proof.
  induction 1 as [|x l Hs IH Hhd]; simpl.
  - by repeat constructor.
  - destruct (sold_gt (total_sold x) (total_sold r)) eqn:E.
    + constructor; [done|]. apply insert_desc_head; [|done].
      unfold not_below. by apply sold_gt_asym.
    + constructor; [by constructor|]. by constructor.
Qed.

Lemma order_by_sorted (l : list popular_product) :
  Sorted not_below (order_by_total_sold_desc l).
Proof.
  induction l as [|r l IH]; simpl; [constructor|]. by apply insert_desc_sorted.
Qed.

Lemma take_sorted {A} (R : A -> A -> Prop) (n : nat) (l : list A) :
  Sorted R l -> Sorted R (take n l).
Proof.
  intros H. revert n. induction H as [|x l Hs IH Hhd]; intros [|n]; simpl;
    try constructor; [apply IH|].
  destruct Hhd, n; simpl; by constructor.
Qed.

(** The rows of the report are in descending order of [total_sold]; the
    products without a sale, whose [total_sold] is NULL, come last. *)
Lemma GetPopularProducts_sorted (db : database) (now d : Z) (n : nat) :
  Sorted not_below (GetPopularProducts db now d n).
Proof. apply take_sorted, order_by_sorted. Qed.

Lemma in_insert_desc (r x : popular_product) (l : list popular_product) :
  In x (insert_desc r l) -> x = r \/ In x l.
Proof.
  induction l as [|y l IH]; simpl.
  - intros [<-|[]]. by left.
  - destruct (sold_gt _ _); simpl.
    + intros [<-|H]; [by right; left|]. destruct (IH H); auto.
    + intros [<-|[<-|H]]; auto.
Qed.

Lemma in_order_by (x : popular_product) (l : list popular_product) :
  In x (order_by_total_sold_desc l) -> In x l.
Proof.
  induction l as [|r l IH]; simpl; [done|].
  intros H. apply in_insert_desc in H as [->|H]; [by left|]. right. by apply IH.
Qed.

Lemma in_add_to_group {R} (k : Z) (r : R) (gs : list (Z * list R)) (kg : Z * list R) (x : R) :
  In kg (add_to_group k r gs) -> In x kg.2 ->
  x = r \/ exists kg', In kg' gs /\ In x kg'.2.
Proof.
  induction gs as [|[k' g] gs IH]; simpl.
  - intros [<-|[]]. simpl. intros [->|[]]. by left.
  - destruct (k' =? k); simpl.
    + intros [<-|H] Hx; simpl in *.
      * apply in_app_iff in Hx as [Hx|[->|[]]]; [|by left].
        right. exists (k', g). auto.
      * right. exists kg. auto.
    + intros [<-|H] Hx.
      * right. exists (k', g). auto.
      * destruct (IH H Hx) as [->|(kg' & ? & ?)]; [by left|].
        right. exists kg'. auto.
Qed.

Lemma in_group_by {R} (key : R -> Z) (rows : list R) (kg : Z * list R) (x : R) :
  In kg (group_by key rows) -> In x kg.2 -> In x rows.
Proof.
  unfold group_by.
  assert (G : forall acc, In kg (fold_left (fun gs r => add_to_group (key r) r gs) rows acc) ->
              In x kg.2 -> In x rows \/ exists kg', In kg' acc /\ In x kg'.2).
  { induction rows as [|r rows IH]; simpl; intros acc Hkg Hx.
    - right. eauto.
    - destruct (IH _ Hkg Hx) as [?|(kg' & Hkg' & Hx')]; [tauto|].
      destruct (in_add_to_group _ _ _ _ _ Hkg' Hx') as [->|?]; tauto. }
  intros Hkg Hx. destruct (G [] Hkg Hx) as [?|(? & [] & _)]. done.
Qed.

Lemma in_popular_from (db : database) (now d : Z) (j : joined) :
  In j (popular_from db now d) -> In (j_p j) (products db).
Proof.
  intros H. apply in_left_join in H. unfold popular_items in H.
  apply in_left_join in H. apply in_inner_join in H. apply in_inner_join in H.
  done.
Qed.

(** Every row of the report is an active product of the catalogue. *)
Lemma GetPopularProducts_active (db : database) (now d : Z) (n : nat) (r : popular_product) :
  In r (GetPopularProducts db now d n) ->
  exists p, In p (products db) /\ is_active p = true /\ pp_id r = id p.
Proof.
  unfold GetPopularProducts, report. intros H.
  apply list_elem_of_In, elem_of_take in H as (i & H & _).
  apply list_elem_of_lookup_2, list_elem_of_In, in_order_by in H.
  apply list_elem_of_In, list_elem_of_omap in H as ([k g] & Hg & Hsel).
  simpl in Hsel. destruct g as [|first g]; [done|]. injection Hsel as <-.
  apply list_elem_of_In in Hg.
  assert (Hin := in_group_by _ _ _ first Hg (or_introl eq_refl)).
  apply filter_In in Hin as [Hin Hact].
  exists (j_p first). split; [by eapply in_popular_from|]. done.
Qed.

End Popular.

(* ===================================================================== *)
(** * Theorems: the order log trigger                                    *)
(* ===================================================================== *)

Module OrderLog.
Import SQL.

Lemma app_singleton_neq {A} (l : list A) (x : A) : l ++ [x] <> l.
Proof.
  intros H. apply (f_equal length) in H. rewrite length_app in H. simpl in H. lia.
Qed.

Section LogFacts.
Variable status_eqb : string -> string -> bool.

(** A comparison with NULL is NULL, so an update from or to a NULL
    status is not logged. *)
Lemma order_status_change_log_null (now : Z) (OLD NEW : orders_order)
  (log : list orders_orderlog) :
  status OLD = None \/ status NEW = None ->
  order_status_change_log status_eqb now OLD NEW log = log.
Proof.
  unfold order_status_change_log, sql_str_neq.
  intros [H|H]; rewrite H; [done|]. by destruct (status OLD).
Qed.

(** With statuses that are not NULL the trigger adds one row when the
    column's comparison tells the two apart, and none otherwise. *)
Lemma order_status_change_log_collation (now : Z) (OLD NEW : orders_order)
  (log : list orders_orderlog) (s1 s2 : string) :
  status OLD = Some s1 -> status NEW = Some s2 ->
  order_status_change_log status_eqb now OLD NEW log
  = if status_eqb s1 s2 then log else log ++ [log_row now OLD NEW].
Proof.
  intros H1 H2. unfold order_status_change_log, sql_str_neq, log_row.
  rewrite H1, H2. by destruct (status_eqb s1 s2).
Qed.

(** C10: after an UPDATE of a row of [orders_order] from [OLD] to [NEW],
    the log has gained one row, holding the order id, the old status,
    the new status, the user and the time, if and only if both statuses
    are not NULL and the comparison of the status column tells them
    apart; after every other update the log is unchanged. *)
Theorem order_status_change_log_distinct (now : Z) (OLD NEW : orders_order)
  (log : list orders_orderlog) :
  let log' := order_status_change_log status_eqb now OLD NEW log in
  let distinct := exists a b, status OLD = Some a /\ status NEW = Some b
                              /\ status_eqb a b = false in
  (distinct <->
     log' = log ++ [ {| order_id := order_pk NEW; old_status := status OLD;
                        new_status := status NEW; changed_by := user_id NEW;
                        changed_at := now |} ])
  /\ (~ distinct -> log' = log).
Proof.
  intros log' distinct. subst log' distinct.
  unfold order_status_change_log, sql_str_neq. fold (log_row now OLD NEW).
  destruct (status OLD) as [a|] eqn:Ho, (status NEW) as [b|] eqn:Hn;
    [destruct (status_eqb a b) eqn:E|..]; simpl.
  - split; [|done]. split.
    + intros (a' & b' & Ha & Hb & H). congruence.
    + intros H. symmetry in H. by apply app_singleton_neq in H.
  - split.
    + split; [done|]. intros _. by exists a, b.
    + intros H. destruct H. by exists a, b.
  - split; [|done]. split.
    + intros (a' & b' & Ha & Hb & H). congruence.
    + intros H. symmetry in H. by apply app_singleton_neq in H.
  - split; [|done]. split.
    + intros (a' & b' & Ha & Hb & H). congruence.
    + intros H. symmetry in H. by apply app_singleton_neq in H.
  - split; [|done]. split.
    + intros (a' & b' & Ha & Hb & H). congruence.
    + intros H. symmetry in H. by apply app_singleton_neq in H.
Qed.

(** Where the status column is NOT NULL and has a collation that tells
    apart any two different texts, a binary one, a row is logged exactly
    when the status has changed. *)
Hypothesis status_eqb_eq : forall a b, status_eqb a b = true <-> a = b.

Lemma order_status_change_log_binary (now : Z) (OLD NEW : orders_order)
  (log : list orders_orderlog) (s1 s2 : string) :
  status OLD = Some s1 -> status NEW = Some s2 ->
  let log' := order_status_change_log status_eqb now OLD NEW log in
  (s1 <> s2 <->
     log' = log ++ [ {| order_id := order_pk NEW; old_status := Some s1;
                        new_status := Some s2; changed_by := user_id NEW;
                        changed_at := now |} ])
  /\ (s1 = s2 -> log' = log).
Proof.
  intros H1 H2 log'. subst log'.
  rewrite (order_status_change_log_collation now OLD NEW log s1 s2 H1 H2).
  unfold log_row. rewrite H1, H2.
  destruct (status_eqb s1 s2) eqn:E.
  - apply status_eqb_eq in E. split; [|done]. split; [done|].
    intros H. symmetry in H. by apply app_singleton_neq in H.
  - split; [|intros Heq; apply status_eqb_eq in Heq; congruence].
    split; [done|]. intros _ Heq. apply status_eqb_eq in Heq. congruence.
Qed.
End LogFacts.

(** Under the collation of the database an update from [pending] to
    [shipped] is logged. *)
Lemma order_status_change_log_distinct_witness :
  (exists a b, status pending_order = Some a /\ status shipped_order = Some b
               /\ unicode_ci_eqb a b = false)
  /\ order_status_change_log unicode_ci_eqb 77 pending_order shipped_order []
     = [ {| order_id := 10; old_status := Some "pending";
            new_status := Some "shipped"; changed_by := Some 5;
            changed_at := 77 |} ].
Proof.
  assert (H : exists a b, status pending_order = Some a
                          /\ status shipped_order = Some b
                          /\ unicode_ci_eqb a b = false)
    by (exists "pending", "shipped"; repeat split; reflexivity).
  split; [exact H|].
  exact (proj1 (proj1 (order_status_change_log_distinct unicode_ci_eqb 77
                         pending_order shipped_order [])) H).
Defined.

(** Two updates that change the status and are not logged: the status is
    rewritten in capitals, which the collation of the database takes for
    the same text; the status goes from NULL to [shipped], and a
    comparison with NULL is not true. *)
Lemma order_status_change_log_misses_changes :
  (status pending_order = Some "pending"
   /\ status capitals_order = Some "PENDING"
   /\ status pending_order <> status capitals_order
   /\ order_status_change_log unicode_ci_eqb 77 pending_order capitals_order []
      = [])
  /\ (status no_status_order = None
      /\ status shipped_order = Some "shipped"
      /\ status no_status_order <> status shipped_order
      /\ order_status_change_log unicode_ci_eqb 77 no_status_order shipped_order []
         = []).
Proof. repeat split; try reflexivity; discriminate. Qed.

End OrderLog.

(* ===================================================================== *)
(** * Theorems: the handlers of main.js                                  *)
(* ===================================================================== *)

Module Handlers.
Import JS.

(** ** parseInt and literals on examples *)

Example utf16_cyrillic : utf16 "я" = [1103%N] /\ length (utf16 "Добавлено") = 9%nat.
Proof. by vm_compute. Qed.

Example parseInt_examples :
  parseInt (utf16 "12") = Int 12
  /\ parseInt (utf16 "  -3 pcs") = Int (-3)
  /\ parseInt (utf16 "+7.5") = Int 7
  /\ parseInt (utf16 "0x1F") = Int 31
  /\ parseInt (utf16 "") = NaN
  /\ parseInt (utf16 "abc") = NaN
  /\ parseInt (utf16 "-") = NaN.
Proof. by vm_compute. Qed.

(** A missing or unusable [data-current-qty] counts as 1, and so does 0. *)
Example currentQuantity_examples :
  currentQuantity_of 3 sample_page = Int 1
  /\ currentQuantity_of 5 sample_page = Int 1
  /\ newQuantity_of_click 4 sample_page = Int 2
  /\ newQuantity_of_input 5 sample_page = Int 0.
Proof. by vm_compute. Qed.

(** ** What each step does to the request log and to the elements *)

Lemma requests_ajax (r : request) (p : page) : requests (ajax r p) = requests p ++ [r].
Proof. done. Qed.

Lemma requests_on_element (n : N) (f : element -> element) (p : page) :
  requests (on_element n f p) = requests p.
Proof. done. Qed.

Lemma requests_showNotification (m : value) (t : string) (p : page) :
  requests (showNotification m t p) = requests p.
Proof. done. Qed.

Lemma elements_on_element (n : N) (f : element -> element) (p : page) :
  elements (on_element n f p) = alter f n (elements p).
Proof. done. Qed.

Lemma elements_showNotification (m : value) (t : string) (p : page) :
  elements (showNotification m t p) = elements p.
Proof. done. Qed.

Lemma issued_app (p q : page) (l : list request) :
  requests q = requests p ++ l -> issued p q = l.
Proof. unfold issued. intros ->. by rewrite drop_app_length. Qed.

Lemma issued_same (p q : page) : requests q = requests p -> issued p q = [].
Proof. unfold issued. intros ->. by rewrite drop_all. Qed.

Lemma lookup_on_element (n : N) (f : element -> element) (p : page) :
  elements (on_element n f p) !! n = f <$> elements p !! n.
Proof. rewrite elements_on_element. apply lookup_alter_eq. Qed.

Lemma lookup_on_element_ne (n m : N) (f : element -> element) (p : page) :
  n <> m -> elements (on_element n f p) !! m = elements p !! m.
Proof. intros H. rewrite elements_on_element. by apply lookup_alter_ne. Qed.

(** ** The search field *)

(** Called with the search field as its receiver, the handler hides the
    suggestion box and sends nothing when the field holds fewer than two
    code units; with two or more it sends exactly one GET request to the
    suggestion endpoint, with the text of the field as [q]. *)
Lemma handleSearchInput_with_receiver (this : N) (p : page) (query : jsstring) :
  get_val this p = query ->
  exists p', handleSearchInput (Some this) p = Returned p'
  /\ ((length query < 2)%nat ->
        suggestions_visible p' = false /\ requests p' = requests p)
  /\ ((2 <= length query)%nat ->
        exists r, requests p' = requests p ++ [r]
                  /\ url r = "/catalog/search/suggestions/"
                  /\ method r = "GET"
                  /\ data r = [("q", Str query)]).
Proof.
  intros Hq. unfold handleSearchInput, val_of. rewrite Hq.
  destruct (length query <? 2)%nat eqn:E; eexists; (split; [reflexivity|]).
  - apply Nat.ltb_lt in E. split; [done|]. intros ?. lia.
  - apply Nat.ltb_ge in E. split; [intros ?; lia|].
    intros _. eexists. by rewrite requests_ajax.
Qed.

Example handleSearchInput_with_receiver_nokia :
  exists p', handleSearchInput (Some 1%N) (search_page "nokia") = Returned p'
  /\ requests p'
     = [ {| url := "/catalog/search/suggestions/"; method := "GET";
            data := [("q", Str (utf16 "nokia"))];
            on_done := SuggestionsCallbacks |} ].
Proof. eexists. split; reflexivity. Qed.

(** Called without a receiver, the handler throws before it does
    anything, whatever the page holds. *)
Lemma handleSearchInput_without_receiver (p : page) :
  handleSearchInput None p = TypeError p.
Proof. reflexivity. Qed.

(** ** Quantity changes *)

Section Quantity.
Variable CSRF_TOKEN : value.

Lemma removeFromCart_requests (confirmed : bool) (itemId : value) (p : page) :
  requests (removeFromCart CSRF_TOKEN confirmed itemId p)
  = requests p ++ (if confirmed then [remove_request CSRF_TOKEN itemId] else []).
Proof. destruct confirmed; simpl; [done|]. by rewrite app_nil_r. Qed.

(** Both handlers branch on the new quantity in the same way. *)
Lemma quantity_branch (confirmed : bool) (itemId : value) (newQuantity : number)
  (p : page) :
  requests (if num_lt newQuantity (Int 1)
            then removeFromCart CSRF_TOKEN confirmed itemId p
            else updateCartItemQuantity CSRF_TOKEN itemId newQuantity p)
  = requests p ++
    match newQuantity with
    | Int z => if z <? 1
               then (if confirmed then [remove_request CSRF_TOKEN itemId] else [])
               else [update_request CSRF_TOKEN itemId (Int z)]
    | NaN => [update_request CSRF_TOKEN itemId NaN]
    end.
Proof.
  destruct newQuantity as [|z]; simpl; [done|].
  destruct (z <? 1); [apply removeFromCart_requests|done].
Qed.

(** C3, as the script behaves.  When the new quantity is below 1 the
    handler asks the user to confirm the removal; the remove-item request
    for the line is sent if the user agrees and nothing is sent if not,
    and no update-quantity request is sent in either case.  When the new
    quantity is at least 1 the update-quantity request is sent with that
    quantity.  This holds for the decrement / increment buttons and for
    the quantity field. *)
Theorem quantity_change_requests (confirmed : bool) (this : N)
  (cartItem : option N) (p : page) (z : Z) :
  let itemId := item_id_of cartItem p in
  let removal := if confirmed then [remove_request CSRF_TOKEN itemId] else [] in
  let update := [update_request CSRF_TOKEN itemId (Int z)] in
  (newQuantity_of_click this p = Int z ->
     (z < 1 -> issued p (handleQuantityChange CSRF_TOKEN confirmed this cartItem p)
               = removal)
     /\ (1 <= z -> issued p (handleQuantityChange CSRF_TOKEN confirmed this cartItem p)
                   = update))
  /\ (newQuantity_of_input this p = Int z ->
        (z < 1 -> issued p (handleQuantityInputChange CSRF_TOKEN confirmed this cartItem p)
                  = removal)
        /\ (1 <= z -> issued p (handleQuantityInputChange CSRF_TOKEN confirmed this cartItem p)
                      = update)).
Proof.
  intros itemId removal update.
  split; intros Hq.
  - unfold handleQuantityChange. fold itemId. rewrite Hq.
    split; intros Hz; apply issued_app; rewrite quantity_branch.
    + apply Z.ltb_lt in Hz. by rewrite Hz.
    + apply Z.ltb_ge in Hz. by rewrite Hz.
  - unfold handleQuantityInputChange. fold itemId. rewrite Hq.
    split; intros Hz; apply issued_app; rewrite quantity_branch.
    + apply Z.ltb_lt in Hz. by rewrite Hz.
    + apply Z.ltb_ge in Hz. by rewrite Hz.
Qed.

(** Text that is not a number in the quantity field is neither below 1
    nor at least 1: the update request is sent, with NaN. *)
Lemma quantity_input_not_a_number (confirmed : bool) (this : N)
  (cartItem : option N) (p : page) :
  newQuantity_of_input this p = NaN ->
  issued p (handleQuantityInputChange CSRF_TOKEN confirmed this cartItem p)
  = [update_request CSRF_TOKEN (item_id_of cartItem p) NaN].
Proof.
  intros Hq. unfold handleQuantityInputChange. rewrite Hq.
  apply issued_app. by rewrite quantity_branch.
Qed.
End Quantity.

(** At the sample page: the increment button of the line of item 9 gives
    quantity 2 and sends the update request; the quantity field holds 0
    and, the user agreeing, sends the remove request. *)
Lemma quantity_change_requests_witness :
  issued sample_page (handleQuantityChange sample_token true 4 (Some 2%N) sample_page)
  = [update_request sample_token (Num (Int 9)) (Int 2)]
  /\ issued sample_page (handleQuantityInputChange sample_token true 5 (Some 2%N) sample_page)
     = [remove_request sample_token (Num (Int 9))].
Proof.
  split.
  - apply (quantity_change_requests sample_token true 4 (Some 2%N) sample_page 2);
      [reflexivity | lia].
  - apply (quantity_change_requests sample_token true 5 (Some 2%N) sample_page 0);
      [reflexivity | lia].
Defined.

(** C3 as stated fails where the user declines the dialog: the decrement
    button at quantity 1 gives the new quantity 0, and no remove-item
    request is sent. *)
Lemma decrement_declined_sends_nothing :
  newQuantity_of_click 3 sample_page = Int 0
  /\ issued sample_page (handleQuantityChange sample_token false 3 (Some 2%N) sample_page)
     = []
  /\ issued sample_page (handleQuantityChange sample_token false 3 (Some 2%N) sample_page)
     <> [remove_request sample_token (Num (Int 9))].
Proof. vm_compute. repeat split; [done..|]. discriminate. Qed.

(** ** The anti-forgery token *)

Lemma issued_ajax (r : request) (p q : page) :
  requests q = requests p -> issued p (ajax r q) = [r].
Proof. intros H. apply issued_app. by rewrite requests_ajax, H. Qed.

Lemma perform_issued (tok : value) (m : mutation) (p : page) :
  issued p (perform tok m p)
  = match m with
    | AddToCart this closest =>
        [add_to_cart_request tok
           (or_else (get_data (Some this) "product-id" p) (get_data closest "product-id" p))
           (or_else (get_data (Some this) "quantity" p) (Num (Int 1)))
           this (get_html this p)]
    | UpdateQuantity itemId quantity => [update_request tok itemId quantity]
    | RemoveItem confirmed itemId =>
        if confirmed then [remove_request tok itemId] else []
    | ClickQuantityButton confirmed this cartItem =>
        match newQuantity_of_click this p with
        | Int z => if z <? 1
                   then (if confirmed then [remove_request tok (item_id_of cartItem p)] else [])
                   else [update_request tok (item_id_of cartItem p) (Int z)]
        | NaN => [update_request tok (item_id_of cartItem p) NaN]
        end
    | ChangeQuantityInput confirmed this cartItem =>
        match newQuantity_of_input this p with
        | Int z => if z <? 1
                   then (if confirmed then [remove_request tok (item_id_of cartItem p)] else [])
                   else [update_request tok (item_id_of cartItem p) (Int z)]
        | NaN => [update_request tok (item_id_of cartItem p) NaN]
        end
    | ToggleWishlist this =>
        [ {| url := WISHLIST_URL; method := "POST";
             data := [("product_id", get_data (Some this) "product-id" p);
                      ("csrfmiddlewaretoken", tok)];
             on_done := WishlistCallbacks this |} ]
    | ToggleCompare this =>
        [ {| url := COMPARE_URL; method := "POST";
             data := [("product_id", get_data (Some this) "product-id" p);
                      ("csrfmiddlewaretoken", tok)];
             on_done := CompareCallbacks this |} ]
    end.
Proof.
  destruct m as [this closest|itemId quantity|confirmed itemId
                 |confirmed this cartItem|confirmed this cartItem|this|this]; simpl.
  - by apply issued_ajax.
  - by apply issued_ajax.
  - apply issued_app, removeFromCart_requests.
  - apply issued_app, quantity_branch.
  - apply issued_app, quantity_branch.
  - by apply issued_ajax.
  - by apply issued_ajax.
Qed.

(** C5: every request sent by adding to the cart, changing a quantity,
    removing a line, or toggling the wishlist or the comparison list is a
    POST whose body carries, as [csrfmiddlewaretoken], the token read from
    the [csrf-token] meta tag of the page. *)
Theorem mutations_carry_csrf_token (meta_content : option jsstring) (m : mutation)
  (p : page) (r : request) :
  In r (issued p (perform (read_csrf_token meta_content) m p)) ->
  method r = "POST"
  /\ field "csrfmiddlewaretoken" r = Some (read_csrf_token meta_content).
Proof.
  rewrite perform_issued.
  destruct m as [this closest|itemId quantity|confirmed itemId
                 |confirmed this cartItem|confirmed this cartItem|this|this].
  - intros [<-|[]]. done.
  - intros [<-|[]]. done.
  - destruct confirmed; [|done]. intros [<-|[]]. done.
  - destruct (newQuantity_of_click this p) as [|z]; [intros [<-|[]]; done|].
    destruct (z <? 1); [destruct confirmed|]; try done; intros [<-|[]]; done.
  - destruct (newQuantity_of_input this p) as [|z]; [intros [<-|[]]; done|].
    destruct (z <? 1); [destruct confirmed|]; try done; intros [<-|[]]; done.
  - intros [<-|[]]. done.
  - intros [<-|[]]. done.
Qed.

Lemma mutations_carry_csrf_token_witness :
  let r := add_to_cart_request sample_token (Num (Int 42)) (Num (Int 1)) 1
             (utf16 "В корзину") in
  In r (issued sample_page (perform sample_token (AddToCart 1 None) sample_page))
  /\ method r = "POST"
  /\ field "csrfmiddlewaretoken" r = Some (Str (utf16 "t0k3n")).
Proof.
  intros r.
  assert (H : In r (issued sample_page
                      (perform (read_csrf_token (Some (utf16 "t0k3n")))
                         (AddToCart 1 None) sample_page))).
  { vm_compute. left. reflexivity. }
  split; [exact H|].
  exact (mutations_carry_csrf_token (Some (utf16 "t0k3n")) (AddToCart 1 None)
           sample_page r H).
Defined.

(** The requests sent from the callbacks (the refresh of the cart
    counter) are GET requests. *)
Lemma callbacks_issue_get (req r : request) (o : outcome) (p : page) :
  In r (issued p (complete req o p)) -> method r = "GET".
Proof.
  destruct o as [resp|], req as [u m d [button originalText|button|button| | | |]];
    simpl; unfold addToCart_success, addToCart_error, wishlist_success,
           compare_success, reload_or_notify, displaySearchSuggestions;
    repeat (match goal with |- context [if ?c then _ else _] => destruct c end);
    try match goal with |- context [match ?h with [] => _ | _ => _ end] => destruct h end;
    try (rewrite issued_same by done; intros []).
  rewrite (issued_app _ _ [ {| url := CART_COUNT_URL; method := "GET"; data := [];
                               on_done := CartCountCallbacks |} ]) by done.
  intros [<-|[]]. done.
Qed.

(** ** The add-to-cart button *)

Lemma handleAddToCart_button (tok : value) (this : N) (closest : option N) (p : page) :
  elements (handleAddToCart tok this closest p) !! this
  = in_flight <$> elements p !! this.
Proof.
  unfold handleAddToCart, showSpinner. simpl.
  rewrite !lookup_alter_eq. by destruct (elements p !! this).
Qed.


Lemma handleAddToCart_requests (tok : value) (this : N) (closest : option N) (p : page) :
  requests (handleAddToCart tok this closest p)
  = requests p ++
    [add_to_cart_request tok
       (or_else (get_data (Some this) "product-id" p) (get_data closest "product-id" p))
       (or_else (get_data (Some this) "quantity" p) (Num (Int 1)))
       this (get_html this p)].
Proof. done. Qed.

Lemma restore_button_lookup (button : N) (originalText : jsstring) (q : page) :
  elements (restore_button button originalText q) !! button
  = restored originalText <$> elements q !! button.
Proof.
  unfold restore_button. simpl. rewrite !lookup_alter_eq.
  by destruct (elements q !! button).
Qed.

Lemma restore_button_others (button other : N) (originalText : jsstring) (q : page) :
  button <> other ->
  elements (restore_button button originalText q) !! other = elements q !! other.
Proof. intros H. unfold restore_button. simpl. by rewrite !lookup_alter_ne. Qed.

(** A failed add-to-cart request restores the button it was sent from,
    on whatever the page has become by then, and touches no other
    element. *)
Lemma failed_add_restores (req : request) (button : N) (originalText : jsstring)
  (o : outcome) (q : page) :
  on_done req = AddToCartCallbacks button originalText ->
  failed o = true ->
  elements (complete req o q) !! button = restored originalText <$> elements q !! button
  /\ forall other, button <> other ->
       elements (complete req o q) !! other = elements q !! other.
Proof.
  intros Hcb Hfail. unfold complete, success, error. rewrite Hcb.
  destruct o as [r|].
  - unfold addToCart_success. apply negb_true_iff in Hfail. rewrite Hfail.
    split; [by rewrite restore_button_lookup|].
    intros other H. by rewrite restore_button_others.
  - unfold addToCart_error.
    split; [by rewrite restore_button_lookup|].
    intros other H. by rewrite restore_button_others.
Qed.

Lemma restored_in_flight (b : element) :
  disabled b = false -> "loading" ∉ classes b ->
  restored (html b) (in_flight b) = b.
Proof.
  destruct b as [d c h ds v]. simpl. intros -> Hc.
  unfold restored, in_flight, set_html, set_disabled, removeClass, addClass; simpl.
  f_equal. apply set_eq. intros x.
  rewrite elem_of_difference, elem_of_union, elem_of_singleton.
  split; [intros [[?|?] ?]; done|].
  intros Hx. split; [by left|]. by intros ->.
Qed.

(** C6: a click on an add-to-cart button sends the add-to-cart request
    and leaves the button disabled while the request is in flight; when
    the request ends in failure (the transport fails, or the answer does
    not report success) the button is enabled again, the [loading] class
    is gone and the label is the one it had before the click, so a button
    that was enabled and not loading is exactly as it was. *)
Theorem addToCart_failure_restores_button (tok : value) (this : N)
  (closest : option N) (p : page) (b : element) :
  elements p !! this = Some b ->
  let p1 := handleAddToCart tok this closest p in
  exists req,
    requests p1 = requests p ++ [req]
    /\ url req = ADD_TO_CART_URL
    /\ (disabled <$> elements p1 !! this) = Some true
    /\ forall o, failed o = true ->
         exists b', elements (complete req o p1) !! this = Some b'
                    /\ disabled b' = false
                    /\ ("loading" ∉ classes b')
                    /\ html b' = html b
                    /\ (disabled b = false -> "loading" ∉ classes b -> b' = b).
Proof.
  intros Hb p1. eexists. split; [apply handleAddToCart_requests|].
  split; [done|].
  split; [subst p1; by rewrite handleAddToCart_button, Hb|].
  intros o Hfail.
  destruct (failed_add_restores
              (add_to_cart_request tok
                 (or_else (get_data (Some this) "product-id" p) (get_data closest "product-id" p))
                 (or_else (get_data (Some this) "quantity" p) (Num (Int 1)))
                 this (get_html this p))
              this (get_html this p) o p1 eq_refl Hfail) as [Hthis _].
  exists (restored (get_html this p) (in_flight b)).
  split; [subst p1; by rewrite Hthis, handleAddToCart_button, Hb|].
  assert (Hhtml : get_html this p = html b) by (unfold get_html; by rewrite Hb).
  rewrite Hhtml.
  repeat split; [|apply restored_in_flight].
  simpl. intros H. apply elem_of_difference in H as [_ H].
  apply H. by apply elem_of_singleton.
Qed.

Lemma addToCart_failure_restores_button_witness :
  exists req,
    requests (handleAddToCart sample_token 1 None sample_page)
    = requests sample_page ++ [req]
    /\ url req = ADD_TO_CART_URL
    /\ (disabled <$> elements (handleAddToCart sample_token 1 None sample_page) !! 1%N)
       = Some true
    /\ forall o, failed o = true ->
         exists b', elements (complete req o (handleAddToCart sample_token 1 None sample_page))
                      !! 1%N = Some b'
                    /\ disabled b' = false
                    /\ ("loading" ∉ classes b')
                    /\ html b' = utf16 "В корзину"
                    /\ (false = false ->
                        "loading" ∉ ({[ "btn"; "btn-primary"; "add-to-cart" ]} : gset string) ->
                        b' = node ["btn"; "btn-primary"; "add-to-cart"] "В корзину"
                               [("product-id", Num (Int 42))] "").
Proof.
  exact (addToCart_failure_restores_button sample_token 1 None sample_page
           (node ["btn"; "btn-primary"; "add-to-cart"] "В корзину"
              [("product-id", Num (Int 42))] "")
           eq_refl).
Defined.


(** After a success the button is not enabled again: it stays disabled,
    with the [loading] class. *)
Lemma addToCart_success_keeps_disabled (tok : value) (this : N)
  (closest : option N) (p : page) (b : element) (r : response) :
  elements p !! this = Some b ->
  truthy (prop r "success") = true ->
  let p1 := handleAddToCart tok this closest p in
  exists req b', requests p1 = requests p ++ [req]
    /\ elements (complete req (Success r) p1) !! this = Some b'
    /\ disabled b' = true /\ "loading" ∈ classes b'.
Proof.
  intros Hb Hs p1.
  assert (H1 : elements p1 !! this = Some (in_flight b))
    by (subst p1; by rewrite handleAddToCart_button, Hb).
  eexists. eexists. split; [apply handleAddToCart_requests|]. clearbody p1.
  unfold complete, success. cbn [on_done add_to_cart_request].
  unfold addToCart_success. rewrite Hs. simpl.
  rewrite !lookup_alter_eq, H1. simpl.
  split; [reflexivity|]. split; [reflexivity|]. set_solver.
Qed.

End Handlers.

(* ===================================================================== *)
(** * More on the rating recompute                                       *)
(* ===================================================================== *)

Module RatingEdge.
Import SQL.

Lemma with_products_same (db : database) : with_products db (products db) = db.
Proof. by destruct db. Qed.

Lemma update_row_null (r c : Z) (p : catalog_product) : update_row None r c p = p.
Proof. done. Qed.

(** [CALL UpdateProductRating(NULL)] selects no review, matches no product
    and leaves the database as it is. *)
Theorem UpdateProductRating_null (db : database) :
  UpdateProductRating db None = Some db.
Proof.
  unfold UpdateProductRating.
  rewrite (Popular.filter_all_false (review_filter None))
    by (intros; apply Rating.review_filter_null).
  simpl. f_equal.
  rewrite (map_ext _ (fun p => p)) by apply update_row_null.
  rewrite map_id. apply with_products_same.
Qed.

(** What a call leaves alone: every table but [catalog_product], the
    number and order of the products, every column of a product but
    [rating] and [reviews_count], and every product with another id. *)
Theorem UpdateProductRating_frame (db db' : database) (pid : option Z) :
  UpdateProductRating db pid = Some db' ->
  (reviews db' = reviews db /\ categories db' = categories db
   /\ brands db' = brands db /\ orderitems db' = orderitems db
   /\ orders db' = orders db /\ orderlog db' = orderlog db)
  /\ Forall2 (fun p p' =>
                id p' = id p /\ name p' = name p /\ slug p' = slug p
                /\ price p' = price p /\ old_price p' = old_price p
                /\ category_id p' = category_id p /\ brand_id p' = brand_id p
                /\ is_active p' = is_active p
                /\ (pid <> Some (id p) -> p' = p))
             (products db) (products db').
Proof.
  unfold UpdateProductRating. destruct (fits_decimal_3_2 _); [|done].
  intros [= <-]. split; [done|]. simpl.
  induction (products db) as [|p ps IH]; simpl; constructor; [|done].
  unfold update_row, sql_eq, is_true. destruct pid as [k|]; [|done].
  destruct (id p =? k) eqn:E; simpl; repeat split; try done.
  - intros H. apply Z.eqb_eq in E. congruence.
Qed.

Lemma UpdateProductRating_frame_witness :
  let db := two_reviewed_products in
  let db' := call_UpdateProductRating two_reviewed_products (Some 7) in
  (reviews db' = reviews db /\ categories db' = categories db
   /\ brands db' = brands db /\ orderitems db' = orderitems db
   /\ orders db' = orders db /\ orderlog db' = orderlog db)
  /\ Forall2 (fun p p' =>
                id p' = id p /\ name p' = name p /\ slug p' = slug p
                /\ price p' = price p /\ old_price p' = old_price p
                /\ category_id p' = category_id p /\ brand_id p' = brand_id p
                /\ is_active p' = is_active p
                /\ (Some 7 <> Some (id p) -> p' = p))
             (products db) (products db').
Proof.
  exact (UpdateProductRating_frame two_reviewed_products
           (call_UpdateProductRating two_reviewed_products (Some 7)) (Some 7) eq_refl).
Defined.

Lemma written_values (db db' : database) (pid : Z) (p' : catalog_product) :
  UpdateProductRating db (Some pid) = Some db' ->
  In p' (products db') -> id p' = pid ->
  rating p' = default 0 (select_avg (all_approved db))
  /\ reviews_count p' = Z.of_nat (length (all_approved db)).
Proof.
  rewrite Rating.UpdateProductRating_writes. cbv zeta.
  destruct (fits_decimal_3_2 _); [|done].
  intros [= <-]. simpl. intros Hin Hid.
  apply in_map_iff in Hin as (p & <- & _).
  destruct (id p =? pid) eqn:E; [done|].
  apply Z.eqb_neq in E. done.
Qed.

(** For an id that is not NULL, the two numbers written into the product
    are the rounded average and the count of all approved reviews of the
    table: they do not depend on the product. *)
Theorem UpdateProductRating_all_reviews (db db' : database) (pid : Z)
  (p' : catalog_product) :
  UpdateProductRating db (Some pid) = Some db' ->
  In p' (products db') -> id p' = pid ->
  rating p' = default 0 (select_avg (all_approved db))
  /\ reviews_count p' = Z.of_nat (length (all_approved db)).
Proof. apply written_values. Qed.

Lemma UpdateProductRating_all_reviews_witness :
  rating (set_reviews_rating (phone 7 "pixel" true) 325 4) = 325
  /\ reviews_count (set_reviews_rating (phone 7 "pixel" true) 325 4) = 4.
Proof.
  exact (UpdateProductRating_all_reviews two_reviewed_products
           (call_UpdateProductRating two_reviewed_products (Some 7)) 7
           (set_reviews_rating (phone 7 "pixel" true) 325 4)
           eq_refl (or_introl eq_refl) eq_refl).
Defined.

(** When no approved review is about another product, the call writes
    what the contract of the recompute asks for. *)
Theorem UpdateProductRating_meets_contract_alone (db db' : database) (pid : Z)
  (p' : catalog_product) :
  (forall r, In r (reviews db) -> is_approved r = true -> review_product_id r = pid) ->
  UpdateProductRating db (Some pid) = Some db' ->
  In p' (products db') -> id p' = pid ->
  rating p' = spec_rating pid db /\ reviews_count p' = spec_reviews_count pid db.
Proof.
  intros Halone Hcall Hin Hid.
  unfold spec_rating, spec_reviews_count.
  rewrite <- (Rating.UpdateProductRating_alone db pid Halone).
  by eapply written_values.
Qed.

Lemma UpdateProductRating_meets_contract_alone_witness :
  rating (set_reviews_rating (phone 7 "pixel" true) 400 3) = spec_rating 7 one_reviewed_product
  /\ reviews_count (set_reviews_rating (phone 7 "pixel" true) 400 3)
     = spec_reviews_count 7 one_reviewed_product.
Proof.
  apply (UpdateProductRating_meets_contract_alone one_reviewed_product
           (call_UpdateProductRating one_reviewed_product (Some 7)) 7).
  - intros r Hin _. vm_compute in Hin.
    repeat (destruct Hin as [<-|Hin]; [reflexivity|]). destruct Hin.
  - reflexivity.
  - left. reflexivity.
  - reflexivity.
Defined.

(** ** Ratings between 1 and 5 *)

Lemma sum_ratings_bounds (rs : list catalog_review) :
  (forall r, In r rs -> 1 <= review_rating r <= 5) ->
  Z.of_nat (length rs) <= sum_ratings rs <= 5 * Z.of_nat (length rs).
Proof.
  induction rs as [|r rs IH]; intros H; [simpl; lia|].
  assert (Hr := H r (or_introl eq_refl)).
  assert (IH' := IH (fun r' Hin => H r' (or_intror Hin))).
  change (sum_ratings (r :: rs)) with (review_rating r + sum_ratings rs).
  rewrite length_cons, Nat2Z.inj_succ. lia.
Qed.

Lemma round_div_bounds (s n : Z) :
  0 < n -> n <= s <= 5 * n -> 100 <= round_div (100 * s) n <= 500.
Proof.
  intros Hn Hs. unfold round_div.
  rewrite Z.sgn_pos, Z.abs_eq, Z.mul_1_l by lia. split.
  - apply Z.div_le_lower_bound; lia.
  - apply Z.lt_succ_r. apply Z.div_lt_upper_bound; lia.
Qed.

Lemma select_avg_bounds (rs : list catalog_review) :
  (forall r, In r rs -> 1 <= review_rating r <= 5) ->
  match select_avg rs with
  | None => rs = []
  | Some a => rs <> [] /\ 100 <= a <= 500
  end.
Proof.
  intros H. destruct rs as [|r rs]; [done|].
  unfold select_avg. split; [done|].
  apply round_div_bounds; [rewrite length_cons; lia|].
  by apply sum_ratings_bounds.
Qed.

(** With every rating between 1 and 5 the average always fits the
    variable, so the call never aborts; the rating written is 0.00 with
    count 0 when the table has no approved review, and lies between 1.00
    and 5.00 otherwise. *)
Theorem UpdateProductRating_in_range (db : database) (pid : Z) :
  (forall r, In r (reviews db) -> 1 <= review_rating r <= 5) ->
  exists db', UpdateProductRating db (Some pid) = Some db'
    /\ forall p', In p' (products db') -> id p' = pid ->
         (rating p' = 0 /\ reviews_count p' = 0 /\ all_approved db = [])
         \/ (100 <= rating p' <= 500 /\ 1 <= reviews_count p').
Proof.
  intros Hrange.
  assert (Hb := select_avg_bounds (all_approved db)
                  (fun r Hin => Hrange r (proj1 (proj1 (filter_In _ _ _) Hin)))).
  assert (Hfit : fits_decimal_3_2 (default 0 (select_avg (all_approved db))) = true).
  { unfold fits_decimal_3_2. destruct (select_avg (all_approved db)) as [a|]; simpl; [|done].
    destruct Hb as [_ Hb]. apply andb_true_iff. split; apply Z.leb_le; lia. }
  pose proof (Rating.UpdateProductRating_writes db pid) as Hw. cbv zeta in Hw.
  rewrite Hfit in Hw. eexists. split; [exact Hw|].
  intros p' Hin Hid.
  destruct (written_values db _ pid p' Hw Hin Hid) as [-> ->].
  destruct (select_avg (all_approved db)) as [a|]; simpl.
  - right. destruct Hb as [Hne Hb]. split; [done|].
    destruct (all_approved db); [done|]. rewrite length_cons. lia.
  - left. by rewrite Hb.
Qed.

Lemma UpdateProductRating_in_range_witness :
  exists db', UpdateProductRating two_reviewed_products (Some 7) = Some db'
    /\ forall p', In p' (products db') -> id p' = 7 ->
         (rating p' = 0 /\ reviews_count p' = 0 /\ all_approved two_reviewed_products = [])
         \/ (100 <= rating p' <= 500 /\ 1 <= reviews_count p').
Proof.
  apply (UpdateProductRating_in_range two_reviewed_products 7).
  intros r Hin. vm_compute in Hin.
  repeat (destruct Hin as [<-|Hin]; [simpl; lia|]). destruct Hin.
Defined.

End RatingEdge.

(* ===================================================================== *)
(** * More on the popular-products report                                *)
(* ===================================================================== *)

Module PopularRows.
Import SQL Reports.

(** ** GROUP BY: one group per key, holding the rows of that key *)

Section GroupBy.
Context {R : Type}.
Variable key : R -> Z.

Lemma add_to_group_keys (k : Z) (r : R) (gs : list (Z * list R)) (k' : Z) :
  In k' (map fst (add_to_group k r gs)) <-> k' = k \/ In k' (map fst gs).
Proof.
  induction gs as [|[k0 g] gs IH]; simpl; [intuition congruence|].
  destruct (k0 =? k) eqn:E; simpl.
  - apply Z.eqb_eq in E. subst. intuition congruence.
  - rewrite IH. intuition congruence.
Qed.

Lemma add_to_group_NoDup (k : Z) (r : R) (gs : list (Z * list R)) :
  List.NoDup (map fst gs) -> List.NoDup (map fst (add_to_group k r gs)).
Proof.
  induction gs as [|[k0 g] gs IH]; simpl; intros H.
  - constructor; [tauto|constructor].
  - inversion H as [|? ? Hnotin Hnd]; subst.
    destruct (k0 =? k) eqn:E; simpl; [by constructor|].
    constructor; [|by apply IH].
    rewrite add_to_group_keys. apply Z.eqb_neq in E. intros [?|?]; congruence.
Qed.

Lemma in_add_to_group_cases (k : Z) (r : R) (gs : list (Z * list R))
  (k' : Z) (g' : list R) :
  List.NoDup (map fst gs) ->
  In (k', g') (add_to_group k r gs) ->
  (k' <> k /\ In (k', g') gs)
  \/ (k' = k /\ ((exists g, In (k, g) gs /\ g' = g ++ [r])
                \/ (~ In k (map fst gs) /\ g' = [r]))).
Proof.
  induction gs as [|[k0 g] gs IH]; simpl; intros Hnd.
  - intros [[= <- <-]|[]]. right. split; [done|]. right. split; [intros []|done].
  - inversion Hnd as [|? ? Hnotin Hnd']; subst.
    destruct (k0 =? k) eqn:E; simpl.
    + apply Z.eqb_eq in E. subst k0.
      intros [[= <- <-]|Hin].
      * right. split; [done|]. left. exists g. tauto.
      * left. split; [|tauto]. intros ->. apply Hnotin.
        apply in_map_iff. by exists (k, g').
    + apply Z.eqb_neq in E. intros [[= <- <-]|Hin].
      * left. tauto.
      * destruct (IH Hnd' Hin) as [[? ?]|[-> [(g0 & ? & ?)|[? ?]]]].
        -- left. tauto.
        -- right. split; [done|]. left. exists g0. tauto.
        -- right. split; [done|]. right. split; [|done]. intros [?|?]; congruence.
Qed.

Lemma filter_snoc (f : R -> bool) (l : list R) (r : R) :
  List.filter f (l ++ [r]) = List.filter f l ++ (if f r then [r] else []).
Proof. rewrite List.filter_app. simpl. by destruct (f r). Qed.

Lemma filter_none_of_key (done : list R) (gs : list (Z * list R)) (k : Z) :
  grouped key done gs -> ~ In k (map fst gs) ->
  List.filter (fun r => key r =? k) done = [].
Proof.
  intros (_ & _ & Hall) Hk. apply Popular.filter_all_false.
  intros r Hr. apply Z.eqb_neq. intros E. apply Hk. rewrite <- E. by apply Hall.
Qed.

Lemma grouped_step (done : list R) (gs : list (Z * list R)) (r : R) :
  grouped key done gs -> grouped key (done ++ [r]) (add_to_group (key r) r gs).
Proof.
  intros Hg. pose proof Hg as (Hnd & Hgs & Hall). split; [|split].
  - by apply add_to_group_NoDup.
  - intros k g Hin. rewrite filter_snoc.
    destruct (in_add_to_group_cases _ _ _ _ _ Hnd Hin)
      as [[Hne Hin']|[-> [(g0 & Hin' & ->)|[Hnew ->]]]].
    + destruct (Hgs k g Hin') as [? ?].
      apply Z.eqb_neq in Hne. rewrite Z.eqb_sym in Hne. rewrite Hne.
      by rewrite app_nil_r.
    + destruct (Hgs _ g0 Hin') as [? <-]. rewrite Z.eqb_refl.
      split; [|done]. by destruct g0.
    + rewrite Z.eqb_refl, (filter_none_of_key done gs) by done. done.
  - intros r' Hin. rewrite add_to_group_keys.
    apply in_app_iff in Hin as [Hin|[<-|[]]]; [right; by apply Hall|by left].
Qed.

Lemma grouped_fold (rows done : list R) (gs : list (Z * list R)) :
  grouped key done gs ->
  grouped key (done ++ rows) (fold_left (fun gs r => add_to_group (key r) r gs) rows gs).
Proof.
  revert done gs. induction rows as [|r rows IH]; intros done gs Hg; simpl.
  - by rewrite app_nil_r.
  - rewrite (app_assoc done [r] rows : done ++ r :: rows = (done ++ [r]) ++ rows).
    apply IH. by apply grouped_step.
Qed.

Lemma group_by_grouped (rows : list R) : grouped key rows (group_by key rows).
Proof.
  apply (grouped_fold rows [] []). split; [constructor|]. split; [done|done].
Qed.
End GroupBy.

(** ** ORDER BY and LIMIT keep the rows *)

Lemma insert_desc_perm (r : popular_product) (l : list popular_product) :
  insert_desc r l ≡ₚ r :: l.
Proof.
  induction l as [|x l IH]; simpl; [done|].
  destruct (sold_gt _ _); [|done]. rewrite IH. apply Permutation_swap.
Qed.

Lemma order_by_perm (l : list popular_product) : order_by_total_sold_desc l ≡ₚ l.
Proof.
  induction l as [|r l IH]; simpl; [done|].
  rewrite insert_desc_perm. by constructor.
Qed.

Lemma select_groups_ids (rows : list joined) :
  map pp_id (select_groups (group_by (fun j => id (j_p j)) rows))
  = map fst (group_by (fun j => id (j_p j)) rows).
Proof.
  destruct (group_by_grouped (fun j => id (j_p j)) rows) as (_ & Hgs & _).
  revert Hgs. generalize (group_by (fun j => id (j_p j)) rows) as gs.
  induction gs as [|[k g] gs IH]; intros Hgs; [done|].
  destruct (Hgs k g (or_introl eq_refl)) as [Hne Hg].
  destruct g as [|first g]; [done|].
  change (select_groups ((k, first :: g) :: gs))
    with (select_group first (first :: g) :: select_groups gs).
  simpl. f_equal.
  - assert (Hin : In first (List.filter (fun r => id (j_p r) =? k) rows))
      by (rewrite <- Hg; by left).
    apply filter_In in Hin as [_ Hk]. by apply Z.eqb_eq.
  - apply IH. intros k' g' Hin. apply Hgs. by right.
Qed.

(** The report has one row per product: no id occurs twice. *)
Theorem GetPopularProducts_one_row_per_product (db : database) (now d : Z) (n : nat) :
  List.NoDup (map pp_id (GetPopularProducts db now d n)).
Proof.
  unfold GetPopularProducts, report.
  set (rows := List.filter _ _).
  apply NoDup_ListNoDup.
  apply (sublist_NoDup _ (map pp_id (order_by_total_sold_desc
          (select_groups (group_by (fun j => id (j_p j)) rows))))).
  - rewrite order_by_perm, select_groups_ids.
    apply NoDup_ListNoDup, (group_by_grouped (fun j => id (j_p j)) rows).
  - apply fmap_sublist, sublist_take.
Qed.

(** ** What total_sold adds up *)

Section JoinFacts.
Context {A B : Type}.
Variable on : A -> B -> option bool.

Lemma left_join_filter (P : A -> bool) (l : list A) (r : list B) :
  List.filter (fun x => P x.1) (left_join on l r) = left_join on (List.filter P l) r.
Proof.
  induction l as [|a l IH]; [done|].
  rewrite Popular.left_join_cons, List.filter_app, IH. simpl.
  assert (Hhead : forall rows : list (A * option B),
            (forall x, In x rows -> x.1 = a) ->
            List.filter (fun x => P x.1) rows = if P a then rows else []).
  { intros rows Hrows. induction rows as [|x rows IHr]; simpl; [by destruct (P a)|].
    rewrite (Hrows x (or_introl eq_refl)), IHr by (intros; apply Hrows; by right).
    by destruct (P a). }
  rewrite Hhead.
  - destruct (P a); [|done]. by rewrite Popular.left_join_cons.
  - intros x Hx. destruct (matches on a r) as [|b ms].
    + by destruct Hx as [<-|[]].
    + destruct Hx as [<-|Hx]; [done|].
      apply in_map_iff in Hx as (b' & <- & _). done.
Qed.

Lemma omap_snd_some (a : A) (l : list B) :
  omap snd (map (fun b => (a, Some b)) l) = l.
Proof. induction l as [|x l IH]; [done|]. csimpl. by rewrite IH. Qed.

Lemma left_join_single (a : A) (r : list B) :
  omap snd (left_join on [a] r) = matches on a r.
Proof.
  rewrite Popular.left_join_cons. change (left_join on [] r) with (@nil (A * option B)).
  rewrite app_nil_r. destruct (matches on a r) as [|b ms]; [done|].
  apply omap_snd_some.
Qed.

Lemma inner_join_cons (a : A) (l : list A) (r : list B) :
  inner_join on (a :: l) r = map (pair a) (matches on a r) ++ inner_join on l r.
Proof. done. Qed.

Lemma inner_join_at_most_one (l : list A) (r : list B) :
  (forall a, (length (matches on a r) <= 1)%nat) ->
  map fst (inner_join on l r) `sublist_of` l.
Proof.
  intros H. induction l as [|a l IH]; [done|].
  rewrite inner_join_cons, map_app, map_map. simpl.
  specialize (H a). destruct (matches on a r) as [|b [|b' ms]]; simpl in *.
  - by apply sublist_cons.
  - by apply sublist_skip.
  - lia.
Qed.
End JoinFacts.

Lemma list_filter_sublist {A} (P : A -> bool) (l : list A) :
  List.filter P l `sublist_of` l.
Proof.
  induction l as [|x l IH]; simpl; [done|].
  destruct (P x); [by apply sublist_skip|by apply sublist_cons].
Qed.

Lemma filter_unique {A} (f : A -> Z) (P : A -> bool) (x0 : A) (l : list A) :
  List.NoDup (map f l) -> In x0 l -> P x0 = true ->
  (forall x, P x = true -> f x = f x0) ->
  List.filter P l = [x0].
Proof.
  intros Hnd Hin HP0 HP. induction l as [|x l IH]; [done|].
  inversion Hnd as [|? ? Hnotin Hnd']; subst. simpl.
  destruct Hin as [->|Hin].
  - rewrite HP0. f_equal. apply Popular.filter_all_false.
    intros y Hy. destruct (P y) eqn:E; [|done].
    exfalso. apply Hnotin. rewrite <- (HP y E). by apply in_map.
  - destruct (P x) eqn:E; [|by apply IH].
    exfalso. apply Hnotin. rewrite (HP x E). by apply in_map.
Qed.

Lemma sql_eq_matches_at_most_one {B} (f : B -> Z) (v : option Z) (l : list B) :
  List.NoDup (map f l) ->
  (length (List.filter (fun b => is_true (sql_eq v (Some (f b)))) l) <= 1)%nat.
Proof.
  intros Hnd. destruct v as [k|].
  - apply (Popular.filter_key_at_most_one f _ k); [done|].
    intros b. unfold sql_eq, is_true. destruct (k =? f b) eqn:E; [|done].
    intros _. symmetry. by apply Z.eqb_eq.
  - rewrite Popular.filter_all_false; [simpl; lia|done].
Qed.

(** The rows of [p JOIN c JOIN b]. *)
Lemma popular_items_unfold (db : database) :
  exists pcb : list (catalog_product * catalog_category * catalog_brand),
    popular_items db
    = left_join (fun x oi => sql_eq (Some (id x.1.1)) (Some (item_product_id oi)))
                pcb (orderitems db)
    /\ (List.NoDup (map id (products db)) ->
        List.NoDup (map category_pk (categories db)) ->
        List.NoDup (map brand_pk (brands db)) ->
        List.NoDup (map (fun x : catalog_product * catalog_category * catalog_brand =>
                           id x.1.1) pcb)).
Proof.
  eexists. split; [reflexivity|].
  intros Hp Hc Hb. apply NoDup_ListNoDup.
  rewrite <- (map_map (fun x : catalog_product * catalog_category * catalog_brand => x.1.1) id).
  rewrite <- (map_map fst fst).
  eapply sublist_NoDup; [apply NoDup_ListNoDup, Hp|].
  apply fmap_sublist. etrans.
  - apply fmap_sublist. apply inner_join_at_most_one.
    intros x. by apply sql_eq_matches_at_most_one.
  - apply inner_join_at_most_one.
    intros x. by apply sql_eq_matches_at_most_one.
Qed.

Lemma omap_fst {A B V} (e : A -> option V) (l : list (A * B)) :
  omap (fun j => e j.1) l = omap e (map fst l).
Proof. apply list_omap_ext. induction l; constructor; done. Qed.

Lemma filter_fst {A B} (P : A -> bool) (l : list (A * B)) :
  map fst (List.filter (fun j => P j.1) l) = List.filter P (map fst l).
Proof.
  induction l as [|x l IH]; simpl; [done|]. destruct (P x.1); simpl; by rewrite IH.
Qed.

Lemma omap_j_oi (l : list joined) : omap j_oi l = omap snd (map fst l).
Proof. exact (omap_fst (snd : item_row -> option orders_orderitem) l). Qed.

Lemma filter_active_fst (l : list joined) :
  map fst (List.filter (fun j => is_active (j_p j)) l)
  = List.filter (fun x : item_row => is_active x.1.1.1) (map fst l).
Proof. exact (filter_fst (fun x : item_row => is_active x.1.1.1) l). Qed.

Lemma filter_key_fst (k : Z) (l : list joined) :
  map fst (List.filter (fun j => id (j_p j) =? k) l)
  = List.filter (fun x : item_row => id x.1.1.1 =? k) (map fst l).
Proof. exact (filter_fst (fun x : item_row => id x.1.1.1 =? k) l). Qed.

Lemma left_join_filter_active {B} (on : pcb_row -> B -> option bool)
  (l : list pcb_row) (r : list B) :
  List.filter (fun x : pcb_row * option B => is_active x.1.1.1) (left_join on l r)
  = left_join on (List.filter (fun y : pcb_row => is_active y.1.1) l) r.
Proof. exact (left_join_filter on (fun y : pcb_row => is_active y.1.1) l r). Qed.

Lemma left_join_filter_key {B} (on : pcb_row -> B -> option bool) (k : Z)
  (l : list pcb_row) (r : list B) :
  List.filter (fun x : pcb_row * option B => id x.1.1.1 =? k) (left_join on l r)
  = left_join on (List.filter (fun y : pcb_row => id y.1.1 =? k) l) r.
Proof. exact (left_join_filter on (fun y : pcb_row => id y.1.1 =? k) l r). Qed.

(** The order items that the rows of one product carry along. *)
Lemma items_of_product (db : database) (now d : Z) (first : joined) :
  List.NoDup (map id (products db)) ->
  List.NoDup (map category_pk (categories db)) ->
  List.NoDup (map brand_pk (brands db)) ->
  List.NoDup (map order_pk (orders db)) ->
  In first (popular_from db now d) ->
  is_active (j_p first) = true ->
  omap j_oi (List.filter (fun j => id (j_p j) =? id (j_p first))
               (List.filter (fun j => is_active (j_p j)) (popular_from db now d)))
  = List.filter (fun oi => id (j_p first) =? item_product_id oi) (orderitems db).
Proof.
  intros Hp Hc Hb Ho Hin Hact.
  set (k := id (j_p first)).
  rewrite omap_j_oi, filter_key_fst, filter_active_fst, Popular.popular_from_fst by done.
  destruct (popular_items_unfold db) as (pcb & Hitems & Hnd).
  specialize (Hnd Hp Hc Hb).
  assert (Hfirst : In first.1.1 pcb).
  { apply Popular.in_left_join in Hin. rewrite Hitems in Hin.
    by apply Popular.in_left_join in Hin. }
  rewrite Hitems, left_join_filter_active, left_join_filter_key.
  rewrite (filter_unique (fun y : pcb_row => id y.1.1)
             (fun y : pcb_row => id y.1.1 =? k) first.1.1).
  - rewrite left_join_single. unfold matches. apply Rating.filter_ext_eq.
    intros oi. subst k. unfold j_p, sql_eq, is_true.
    by destruct (id first.1.1.1.1 =? item_product_id oi).
  - apply NoDup_ListNoDup. eapply sublist_NoDup; [apply NoDup_ListNoDup, Hnd|].
    apply fmap_sublist. apply list_filter_sublist.
  - apply filter_In. split; [done|exact Hact].
  - apply Z.eqb_refl.
  - intros x Hx. by apply Z.eqb_eq in Hx.
Qed.

(** For each row of the report, [orders_count] is the number of all order
    items of the product and [total_sold] the sum of their quantities
    (NULL when the product has none), whenever the order was placed.
    The keys of the tables are assumed free of duplicates. *)
Theorem GetPopularProducts_total_sold (db : database) (now d : Z) (n : nat)
  (r : popular_product) :
  List.NoDup (map id (products db)) ->
  List.NoDup (map category_pk (categories db)) ->
  List.NoDup (map brand_pk (brands db)) ->
  List.NoDup (map order_pk (orders db)) ->
  In r (GetPopularProducts db now d n) ->
  let sold := List.filter (fun oi => pp_id r =? item_product_id oi) (orderitems db) in
  orders_count r = Z.of_nat (length sold)
  /\ total_sold r = match sold with
                    | [] => None
                    | _ => Some (foldr Z.add 0 (map quantity sold))
                    end.
Proof.
  intros Hp Hc Hb Ho Hin.
  unfold GetPopularProducts, report in Hin.
  apply list_elem_of_In, elem_of_take in Hin as (i & Hin & _).
  apply list_elem_of_lookup_2, list_elem_of_In, Popular.in_order_by in Hin.
  apply list_elem_of_In, list_elem_of_omap in Hin as ([k g] & Hg & Hsel).
  simpl in Hsel. destruct g as [|first g]; [done|]. injection Hsel as <-.
  apply list_elem_of_In in Hg.
  destruct (group_by_grouped (fun j => id (j_p j))
              (List.filter (fun j => is_active (j_p j)) (popular_from db now d)))
    as (_ & Hgs & _).
  destruct (Hgs k _ Hg) as [_ Hfilter].
  assert (Hfirst : In first (first :: g)) by (by left).
  rewrite Hfilter in Hfirst. apply filter_In in Hfirst as [Hfirst Hk].
  apply filter_In in Hfirst as [Hfirst Hact]. apply Z.eqb_eq in Hk.
  pose proof (items_of_product db now d first Hp Hc Hb Ho Hfirst Hact) as Hitems.
  rewrite Hk, <- Hfilter in Hitems.
  cbv zeta. change (pp_id (select_group first (first :: g))) with (id (j_p first)).
  rewrite Hk, <- Hitems.
  change (orders_count (select_group first (first :: g)))
    with (sql_count (fun j => item_pk <$> j_oi j) (first :: g)).
  change (total_sold (select_group first (first :: g)))
    with (sql_sum (fun j => quantity <$> j_oi j) (first :: g)).
  clear. generalize (first :: g) as l. intros l. unfold sql_count, sql_sum.
  rewrite <- !list_fmap_omap, length_fmap.
  split; [done|]. by destruct (omap j_oi l).
Qed.

Lemma GetPopularProducts_total_sold_witness :
  let r := {| pp_id := 7; pp_name := "pixel"; pp_slug := "pixel"; pp_price := 1999000;
              pp_old_price := None; pp_rating := 0; pp_reviews_count := 0;
              pp_category_name := "phones"; pp_brand_name := "acme";
              orders_count := 1; total_sold := Some 3 |} in
  let sold := List.filter (fun oi => pp_id r =? item_product_id oi)
                (orderitems old_order_db) in
  orders_count r = Z.of_nat (length sold)
  /\ total_sold r = match sold with
                    | [] => None
                    | _ => Some (foldr Z.add 0 (map quantity sold))
                    end.
Proof.
  intros r.
  refine (GetPopularProducts_total_sold old_order_db sample_now 30 10 r _ _ _ _ _).
  - vm_compute. apply NoDup_ListNoDup. apply (bool_decide_unpack _). by vm_compute.
  - vm_compute. apply NoDup_ListNoDup. apply (bool_decide_unpack _). by vm_compute.
  - vm_compute. apply NoDup_ListNoDup. apply (bool_decide_unpack _). by vm_compute.
  - vm_compute. apply NoDup_ListNoDup. apply (bool_decide_unpack _). by vm_compute.
  - vm_compute. left. reflexivity.
Defined.

End PopularRows.

(* ===================================================================== *)
(** * Theorems: the sales report and the log of an UPDATE                *)
(* ===================================================================== *)

Module SalesFacts.
Import SQL Reports.

Lemma filter_implied {A} (P Q : A -> bool) (l : list A) :
  (forall x, P x = true -> Q x = true) ->
  List.filter P (List.filter Q l) = List.filter P l.
Proof.
  intros H. induction l as [|x l IH]; simpl; [done|].
  destruct (Q x) eqn:EQ; simpl; [by rewrite IH|].
  destruct (P x) eqn:EP; [|done]. rewrite (H x EP) in EQ. done.
Qed.

Lemma sum_Z_app (l1 l2 : list Z) : sum_Z (l1 ++ l2) = sum_Z l1 + sum_Z l2.
Proof. unfold sum_Z. induction l1 as [|x l1 IH]; simpl; lia. Qed.

Lemma sum_Z_perm (l1 l2 : list Z) : l1 ≡ₚ l2 -> sum_Z l1 = sum_Z l2.
Proof. unfold sum_Z. induction 1; simpl; lia. Qed.

Section Stats.
Variable status_eqb : string -> string -> bool.

Lemma sales_where_range (s e : Z) (o : orders_order) :
  sales_where status_eqb s e o = true ->
  datetime_of_date s <= created_at o <= datetime_of_date e.
Proof.
  unfold sales_where, sql_between, sql_le, sql_ge. intros H.
  destruct (created_at o >=? datetime_of_date s) eqn:E1;
    destruct (datetime_of_date e >=? created_at o) eqn:E2;
    destruct (sql_in status_eqb (status o) _) as [[]|];
    simpl in H; try discriminate H.
  rewrite Z.geb_le in E1, E2. lia.
Qed.

(** An order placed after 00:00:00 of [end_date] is outside
    [BETWEEN start_date AND end_date], also when it was placed on that
    day: the report is the same without all such orders. *)
Theorem GetSalesStats_ends_at_midnight (db : database) (start_date end_date : Z) :
  GetSalesStats status_eqb
    (with_orders db
       (List.filter (fun o => created_at o <=? datetime_of_date end_date) (orders db)))
    start_date end_date
  = GetSalesStats status_eqb db start_date end_date.
Proof.
  unfold GetSalesStats. simpl. rewrite filter_implied; [done|].
  intros o Ho. apply sales_where_range in Ho. apply Z.leb_le. lia.
Qed.

(** ** Days of the report *)

Lemma in_insert_by_date (r x : sales_row) (l : list sales_row) :
  In x (insert_by_date r l) <-> x = r \/ In x l.
Proof.
  induction l as [|y l IH]; simpl; [intuition congruence|].
  destruct (sale_date y <? sale_date r); simpl; [rewrite IH|]; intuition congruence.
Qed.

Lemma in_order_by_sale_date (x : sales_row) (l : list sales_row) :
  In x (order_by_sale_date l) <-> In x l.
Proof.
  induction l as [|r l IH]; simpl; [done|].
  rewrite in_insert_by_date, IH. intuition congruence.
Qed.

Lemma insert_by_date_sorted (r : sales_row) (l : list sales_row) :
  Sorted earlier l -> ~ In (sale_date r) (map sale_date l) ->
  Sorted earlier (insert_by_date r l).
Proof.
  induction 1 as [|x l Hs IH Hhd]; simpl; intros Hnew.
  - by repeat constructor.
  - destruct (sale_date x <? sale_date r) eqn:E.
    + apply Z.ltb_lt in E. constructor; [apply IH; tauto|].
      destruct l as [|y l]; simpl; [by constructor|].
      destruct (sale_date y <? sale_date r); constructor; [by inversion Hhd|done].
    + apply Z.ltb_ge in E. constructor; [by constructor|]. constructor.
      unfold earlier. assert (sale_date x <> sale_date r) by tauto. lia.
Qed.

Lemma order_by_sale_date_sorted (l : list sales_row) :
  List.NoDup (map sale_date l) -> Sorted earlier (order_by_sale_date l).
Proof.
  induction l as [|r l IH]; simpl; intros Hnd; [constructor|].
  inversion Hnd as [|? ? Hnotin Hnd']; subst.
  apply insert_by_date_sorted; [by apply IH|].
  intros Hin. apply Hnotin. apply in_map_iff in Hin as (x & Hx & Hin).
  apply (proj1 (in_order_by_sale_date x l)) in Hin. rewrite <- Hx. by apply in_map.
Qed.

Lemma DATE_range (s e t : Z) :
  datetime_of_date s <= t <= datetime_of_date e -> s <= DATE t <= e.
Proof.
  unfold datetime_of_date, DATE, seconds_per_day. intros [H1 H2]. split.
  - apply Z.div_le_lower_bound; lia.
  - apply Z.div_le_upper_bound; lia.
Qed.

(** The report has one row per day, in ascending order of the days, and
    every day lies between [start_date] and [end_date]. *)
Theorem GetSalesStats_days (db : database) (start_date end_date : Z) :
  let rows := GetSalesStats status_eqb db start_date end_date in
  Sorted earlier rows
  /\ Forall (fun r => start_date <= sale_date r <= end_date) rows.
Proof.
  intros rows. subst rows. unfold GetSalesStats.
  set (qual := List.filter (sales_where status_eqb start_date end_date) (orders db)).
  destruct (PopularRows.group_by_grouped (fun o => DATE (created_at o)) qual)
    as (Hnd & Hgs & _).
  split.
  - apply order_by_sale_date_sorted. by rewrite map_map.
  - apply Forall_forall. intros r Hr.
    apply list_elem_of_In, in_order_by_sale_date, in_map_iff in Hr as ([k g] & <- & Hg).
    destruct (Hgs k g Hg) as [Hne Hfilter]. simpl.
    destruct g as [|o g]; [done|].
    assert (Ho : In o (o :: g)) by (by left).
    rewrite Hfilter in Ho. apply filter_In in Ho as [Ho Hk].
    apply Z.eqb_eq in Hk. subst k. apply DATE_range.
    apply filter_In in Ho as [_ Ho]. by eapply sales_where_range.
Qed.

(** ** The sums of the report *)

Lemma add_to_group_total {R} (m : R -> Z) (k : Z) (r : R) (gs : list (Z * list R)) :
  sum_Z (map (fun kg => sum_Z (map m kg.2)) (add_to_group k r gs))
  = sum_Z (map (fun kg => sum_Z (map m kg.2)) gs) + m r.
Proof.
  induction gs as [|[k' g] gs IH]; simpl; [unfold sum_Z; simpl; lia|].
  destruct (k' =? k); simpl.
  - rewrite map_app, sum_Z_app. unfold sum_Z; simpl. lia.
  - unfold sum_Z in *. simpl. rewrite IH. lia.
Qed.

Lemma group_by_total {R} (m : R -> Z) (key : R -> Z) (rows : list R) :
  sum_Z (map (fun kg => sum_Z (map m kg.2)) (group_by key rows)) = sum_Z (map m rows).
Proof.
  unfold group_by.
  assert (G : forall acc,
            sum_Z (map (fun kg => sum_Z (map m kg.2))
                     (fold_left (fun gs r => add_to_group (key r) r gs) rows acc))
            = sum_Z (map (fun kg => sum_Z (map m kg.2)) acc) + sum_Z (map m rows)).
  { induction rows as [|r rows IH]; intros acc; simpl.
    - unfold sum_Z; simpl; lia.
    - rewrite IH, add_to_group_total. unfold sum_Z; simpl. lia. }
  rewrite G. unfold sum_Z; simpl. lia.
Qed.

Lemma insert_by_date_perm (r : sales_row) (l : list sales_row) :
  insert_by_date r l ≡ₚ r :: l.
Proof.
  induction l as [|x l IH]; simpl; [done|].
  destruct (_ <? _); [|done]. rewrite IH. apply Permutation_swap.
Qed.

Lemma order_by_sale_date_perm (l : list sales_row) : order_by_sale_date l ≡ₚ l.
Proof.
  induction l as [|r l IH]; simpl; [done|].
  rewrite insert_by_date_perm. by constructor.
Qed.

Lemma length_remove_dups_le {A} `{EqDecision A} (l : list A) :
  (length (remove_dups l) <= length l)%nat.
Proof.
  induction l as [|x l IH]; simpl; [done|]. case_decide; simpl; lia.
Qed.

Lemma length_remove_dups_NoDup {A} `{EqDecision A} (l : list A) :
  List.NoDup l -> length (remove_dups l) = length l.
Proof.
  induction 1 as [|x l Hnotin Hnd IH]; simpl; [done|].
  case_decide as Hin; simpl; [|by rewrite IH].
  exfalso. apply Hnotin. by apply list_elem_of_In.
Qed.

Lemma revenue_of_group (g : list orders_order) :
  default 0 (sql_sum (fun o => Some (total_amount o)) g) = sum_Z (map total_amount g).
Proof.
  unfold sql_sum.
  replace (omap (fun o => Some (total_amount o)) g) with (map total_amount g)
    by (induction g as [|o g IH]; [done|]; csimpl; by rewrite <- IH).
  by destruct (map total_amount g).
Qed.

Lemma sum_Z_ones {A} (l : list A) : sum_Z (map (fun _ => 1) l) = Z.of_nat (length l).
Proof. unfold sum_Z. induction l as [|x l IH]; simpl; lia. Qed.

(** Over the rows of the report, [total_revenue] adds up to the amounts of
    all orders in the range with one of the two statuses, and
    [orders_count] to their number; no day has more customers than
    orders.  The ids of the orders are assumed free of duplicates. *)
Theorem GetSalesStats_totals (db : database) (start_date end_date : Z) :
  List.NoDup (map order_pk (orders db)) ->
  let qualifying := List.filter (sales_where status_eqb start_date end_date) (orders db) in
  let rows := GetSalesStats status_eqb db start_date end_date in
  sum_Z (map (fun r => default 0 (total_revenue r)) rows)
  = sum_Z (map total_amount qualifying)
  /\ sum_Z (map day_orders_count rows) = Z.of_nat (length qualifying)
  /\ Forall (fun r => 0 <= unique_customers r <= day_orders_count r) rows.
Proof.
  intros Hnd qualifying rows. subst rows. unfold GetSalesStats. fold qualifying.
  destruct (PopularRows.group_by_grouped (fun o => DATE (created_at o)) qualifying)
    as (_ & Hgs & _).
  assert (Hcount : forall k g,
            In (k, g) (group_by (fun o => DATE (created_at o)) qualifying) ->
            length (remove_dups (map order_pk g)) = length g).
  { intros k g Hg. rewrite length_remove_dups_NoDup; [by rewrite length_map|].
    destruct (Hgs k g Hg) as [_ ->]. apply NoDup_ListNoDup.
    eapply sublist_NoDup; [apply NoDup_ListNoDup, Hnd|].
    apply fmap_sublist. etrans; apply PopularRows.list_filter_sublist. }
  split; [|split].
  - rewrite (sum_Z_perm _ _ (fmap_Permutation _ _ _ (order_by_sale_date_perm _))).
    rewrite <- (group_by_total total_amount (fun o => DATE (created_at o)) qualifying).
    rewrite map_map. f_equal. apply map_ext. intros [k g]. apply revenue_of_group.
  - rewrite (sum_Z_perm _ _ (fmap_Permutation _ _ _ (order_by_sale_date_perm _))).
    rewrite <- sum_Z_ones.
    rewrite <- (group_by_total (fun _ => 1) (fun o => DATE (created_at o)) qualifying).
    rewrite map_map. f_equal. apply map_ext_in. intros [k g] Hg. simpl.
    by rewrite (Hcount k g Hg), sum_Z_ones.
  - apply Forall_forall. intros r Hr.
    apply list_elem_of_In, in_order_by_sale_date, in_map_iff in Hr as ([k g] & <- & Hg).
    simpl. rewrite (Hcount k g Hg). split; [lia|].
    apply inj_le. etrans; [apply length_remove_dups_le|].
    clear. induction g as [|o g IH]; [done|]. csimpl.
    destruct (user_id o); simpl; lia.
Qed.

(** ** The log after an UPDATE of several rows *)

Lemma order_status_change_log_step (now : Z) (OLD NEW : orders_order)
  (log : list orders_orderlog) :
  order_status_change_log status_eqb now OLD NEW log = log
  \/ (order_status_change_log status_eqb now OLD NEW log = log ++ [log_row now OLD NEW]
      /\ records_change status_eqb (log_row now OLD NEW)).
Proof.
  unfold order_status_change_log, sql_str_neq.
  destruct (status OLD) as [a|] eqn:Ea, (status NEW) as [b|] eqn:Eb; simpl; auto.
  destruct (status_eqb a b) eqn:E; simpl; auto.
  right. split; [done|]. exists a, b. simpl. auto.
Qed.

(** Whatever rows an UPDATE changes, the trigger only appends to the log:
    the rows present before stay as they were, at most one row is added
    per updated row, and every added row records a change between two
    statuses that are not NULL and that the comparison tells apart. *)
Theorem for_each_row_appends (now : Z) (updated : list (orders_order * orders_order))
  (log : list orders_orderlog) :
  exists added,
    for_each_row status_eqb now updated log = log ++ added
    /\ (length added <= length updated)%nat
    /\ Forall (records_change status_eqb) added.
Proof.
  revert log. induction updated as [|[o n] updated IH]; intros log; simpl.
  - exists []. by rewrite app_nil_r.
  - destruct (order_status_change_log_step now o n log) as [->|[-> Hrow]].
    + destruct (IH log) as (added & -> & Hlen & Hall).
      exists added. repeat split; [lia|done].
    + destruct (IH (log ++ [log_row now o n])) as (added & -> & Hlen & Hall).
      exists (log_row now o n :: added). rewrite <- app_assoc.
      repeat split; [simpl; lia|by constructor].
Qed.
End Stats.

Lemma GetSalesStats_totals_witness :
  let qualifying := List.filter (sales_where unicode_ci_eqb 10 11) (orders sales_db) in
  let rows := GetSalesStats unicode_ci_eqb sales_db 10 11 in
  sum_Z (map (fun r => default 0 (total_revenue r)) rows)
  = sum_Z (map total_amount qualifying)
  /\ sum_Z (map day_orders_count rows) = Z.of_nat (length qualifying)
  /\ Forall (fun r => 0 <= unique_customers r <= day_orders_count r) rows.
Proof.
  apply (GetSalesStats_totals unicode_ci_eqb sales_db 10 11).
  vm_compute. apply NoDup_ListNoDup. apply (bool_decide_unpack _). by vm_compute.
Defined.

(** The sample: the order of day 11 at 00:00:01 is left out of the report
    for days 10 to 11, the one at 00:00:00 is in it. *)
Example GetSalesStats_sample :
  map (fun r => (sale_date r, day_orders_count r, unique_customers r, total_revenue r))
      (GetSalesStats unicode_ci_eqb sales_db 10 11)
  = [(10, 2, 1, Some 7500); (11, 1, 1, Some 10000)].
Proof. by vm_compute. Qed.

End SalesFacts.

(* ===================================================================== *)
(** * Theorems: debounce, sorting and filtering                          *)
(* ===================================================================== *)

Module BrowserFacts.
Import JS Browser.

(** ** debounce *)

Section Debounce.
Context {A : Type}.
Variable wait : Z.

Lemma clearTimeout_settled (s : debounced (A:=A)) :
  settled s -> clearTimeout (timeout s) (active s) = [].
Proof.
  intros [H|(id & due & args & Ht & Ha)]; rewrite ?H, ?Ht, ?Ha.
  - by destruct (timeout s).
  - simpl. by rewrite Nat.eqb_refl.
Qed.

(** One call and the time that passes after it: [func] runs, with the
    arguments of this call, exactly when at least [wait] passes. *)
Lemma call_then_elapse (args : A) (dt : Z) (s : debounced (A:=A)) :
  settled s ->
  settled (elapse dt (executedFunction wait args s))
  /\ calls (elapse dt (executedFunction wait args s))
     = calls s ++ (if wait <=? dt then [args] else []).
Proof.
  intros Hs. unfold executedFunction, elapse.
  rewrite (clearTimeout_settled s Hs). simpl.
  replace (clock s + wait <=? clock s + dt) with (wait <=? dt)
    by (destruct (wait <=? dt) eqn:E; symmetry;
        [apply Z.leb_le; apply Z.leb_le in E|apply Z.leb_gt; apply Z.leb_gt in E]; lia).
  destruct (wait <=? dt); simpl.
  - rewrite Nat.eqb_refl. simpl. split; [by left|done].
  - split; [|by rewrite app_nil_r].
    right. by exists (next_id s), (clock s + wait), args.
Qed.


(** Time that passes in two steps after a call counts as their sum. *)
Lemma elapse_twice (args : A) (d1 d2 : Z) (s : debounced (A:=A)) :
  settled s -> 0 <= d1 -> 0 <= d2 ->
  calls (elapse d2 (elapse d1 (executedFunction wait args s)))
  = calls (elapse (d1 + d2) (executedFunction wait args s)).
Proof.
  intros Hs H1 H2. unfold executedFunction, elapse.
  rewrite (clearTimeout_settled s Hs). simpl.
  destruct (clock s + wait <=? clock s + d1) eqn:E1; simpl.
  - rewrite Nat.eqb_refl. simpl.
    assert (E : (clock s + wait <=? clock s + (d1 + d2)) = true)
      by (apply Z.leb_le; apply Z.leb_le in E1; lia).
    by rewrite E.
  - replace (clock s + wait <=? clock s + d1 + d2)
      with (clock s + wait <=? clock s + (d1 + d2)) by (f_equal; lia).
    destruct (clock s + wait <=? clock s + (d1 + d2)); simpl; [|done].
    done.
Qed.
End Debounce.

(** ** The search field *)

(** C9: the script installs the search handler through [debounce], whose
    timer calls it without a receiver.  For every page, whatever the
    search field holds, an [input] event followed by 300 ms or more makes
    exactly one call of the handler, and that call throws a TypeError:
    the suggestion box is left as it was and no request is issued, for a
    text shorter than two as for a longer one.  In less than 300 ms the
    handler is not called at all. *)
Theorem search_field_input_throws {A : Type} (e : A) (dt : Z) (p : page) :
  search_field_input e dt p = (if 300 <=? dt then [TypeError p] else [])
  /\ Forall (fun r => suggestions_visible (page_after r) = suggestions_visible p
                      /\ requests (page_after r) = requests p)
            (search_field_input e dt p).
Proof.
  assert (H : search_field_input e dt p
              = if 300 <=? dt then [TypeError p] else []).
  { unfold search_field_input.
    destruct (call_then_elapse 300 e dt debounce (or_introl eq_refl)) as [_ ->].
    simpl. by destruct (300 <=? dt). }
  split; [exact H|]. rewrite H.
  destruct (300 <=? dt); repeat constructor.
Qed.

(** The field holds [nokia]: a request is due, none is sent. *)
Example search_field_input_nokia :
  search_field_input tt 300 (search_page "nokia")
  = [TypeError (search_page "nokia")]
  /\ requests (search_page "nokia") = [].
Proof. split; reflexivity. Qed.

(** The field holds one letter and the suggestion box is shown: the box
    is due to be hidden, and stays. *)
Example search_field_input_one_letter :
  get_val 6 sample_page = utf16 "я"
  /\ length (utf16 "я") = 1%nat
  /\ search_field_input tt 300 sample_page = [TypeError sample_page]
  /\ suggestions_visible sample_page = true.
Proof. repeat split; reflexivity. Qed.

(** ** URLSearchParams *)

Lemma params_delete_named (n : jsstring) (l : list (jsstring * jsstring)) :
  List.filter (named n) (params_delete n l) = [].
Proof.
  unfold params_delete. induction l as [|kv l IH]; simpl; [done|].
  case_bool_decide as E; simpl; [done|]. by rewrite bool_decide_eq_false_2.
Qed.

Lemma params_set_named (n v : jsstring) (l : list (jsstring * jsstring)) :
  List.filter (named n) (params_set n v l) = [(n, v)].
Proof.
  induction l as [|kv l IH]; simpl.
  - by rewrite bool_decide_eq_true_2.
  - case_bool_decide as E; simpl.
    + by rewrite bool_decide_eq_true_2, params_delete_named.
    + by rewrite bool_decide_eq_false_2.
Qed.

(** A change to the parameter [n] leaves the parameters selected by [Q]
    alone when [Q] does not select [n]. *)
Lemma params_delete_other (Q : jsstring -> bool) (n : jsstring)
  (l : list (jsstring * jsstring)) :
  Q n = false ->
  List.filter (fun kv => Q kv.1) (params_delete n l) = List.filter (fun kv => Q kv.1) l.
Proof.
  intros HQ. unfold params_delete. induction l as [|kv l IH]; simpl; [done|].
  case_bool_decide as E; simpl; [|by rewrite IH].
  by rewrite E, HQ.
Qed.

Lemma params_set_other (Q : jsstring -> bool) (n v : jsstring)
  (l : list (jsstring * jsstring)) :
  Q n = false ->
  List.filter (fun kv => Q kv.1) (params_set n v l) = List.filter (fun kv => Q kv.1) l.
Proof.
  intros HQ. induction l as [|kv l IH]; simpl; [by rewrite HQ|].
  case_bool_decide as E; simpl.
  - rewrite HQ, E, HQ. by apply params_delete_other.
  - by rewrite IH.
Qed.

Lemma params_delete_absent (n : jsstring) (l : list (jsstring * jsstring)) :
  List.filter (named n) l = [] -> params_delete n l = l.
Proof.
  unfold params_delete. induction l as [|kv l IH]; simpl; [done|].
  case_bool_decide as E; simpl; [done|]. intros H. by rewrite IH.
Qed.

Lemma params_set_present (n v : jsstring) (l : list (jsstring * jsstring)) :
  List.filter (named n) l = [(n, v)] -> params_set n v l = l.
Proof.
  induction l as [|kv l IH]; simpl; [done|].
  case_bool_decide as E; simpl.
  - intros [= -> H]. by rewrite params_delete_absent.
  - intros H. by rewrite IH.
Qed.

Lemma params_delete_twice (n : jsstring) (l : list (jsstring * jsstring)) :
  params_delete n (params_delete n l) = params_delete n l.
Proof. unfold params_delete. by apply SalesFacts.filter_implied. Qed.

Lemma params_delete_set (n v : jsstring) (l : list (jsstring * jsstring)) :
  params_delete n (params_set n v l) = params_delete n l.
Proof.
  induction l as [|kv l IH]; simpl.
  - by rewrite bool_decide_eq_true_2.
  - case_bool_decide as E; simpl.
    + rewrite bool_decide_eq_true_2 by done. simpl. apply params_delete_twice.
    + rewrite bool_decide_eq_false_2 by done. simpl. by rewrite IH.
Qed.

Lemma params_set_twice (n v v' : jsstring) (l : list (jsstring * jsstring)) :
  params_set n v' (params_set n v l) = params_set n v' l.
Proof.
  induction l as [|kv l IH]; simpl.
  - by rewrite bool_decide_eq_true_2.
  - case_bool_decide as E; simpl.
    + rewrite bool_decide_eq_true_2 by done. by rewrite params_delete_twice.
    + rewrite bool_decide_eq_false_2 by done. by rewrite IH.
Qed.

(** ** handleSortChange *)

(** After a change of the sort order the location has exactly one [sort]
    parameter, the chosen one; every other parameter, the text before
    the query and the fragment are as before; and a second choice
    replaces the first. *)
Theorem handleSortChange_replaces (v v' : control_value) (u : URL) :
  let u1 := handleSortChange v u in
  List.filter (named (utf16 "sort")) (searchParams u1)
  = [(utf16 "sort", USVString (ToString v))]
  /\ params_delete (utf16 "sort") (searchParams u1)
     = params_delete (utf16 "sort") (searchParams u)
  /\ before_query u1 = before_query u /\ fragment u1 = fragment u
  /\ handleSortChange v' u1 = handleSortChange v' u.
Proof.
  intros u1. subst u1. unfold handleSortChange. simpl.
  split; [apply params_set_named|]. split; [|split; [done|split; [done|]]].
  - apply params_delete_set.
  - unfold with_params. simpl. f_equal. apply params_set_twice.
Qed.

(** ** handleFilterChange *)

Lemma filter_step_other (Q : jsstring -> bool) (l : list (jsstring * jsstring))
  (f : control) :
  Q (name_text f) = false ->
  List.filter (fun kv => Q kv.1) (filter_step l f) = List.filter (fun kv => Q kv.1) l.
Proof.
  intros HQ. unfold filter_step. destruct (val_truthy (field_value f)).
  - by apply params_set_other.
  - by apply params_delete_other.
Qed.

Lemma filter_step_named (l : list (jsstring * jsstring)) (f : control) :
  List.filter (named (name_text f)) (filter_step l f) = asked f.
Proof.
  unfold filter_step, asked. destruct (val_truthy (field_value f)).
  - apply params_set_named.
  - apply params_delete_named.
Qed.

Lemma filter_step_fixed (l : list (jsstring * jsstring)) (f : control) :
  List.filter (named (name_text f)) l = asked f -> filter_step l f = l.
Proof.
  unfold filter_step, asked. destruct (val_truthy (field_value f)).
  - apply params_set_present.
  - apply params_delete_absent.
Qed.

(** The parameters whose name is not the name of a field of the form are
    kept, in their order: a filter change does not reset the page or the
    sort order. *)
Theorem handleFilterChange_keeps_other_params (fields : list control) (u : URL) :
  let kept := fun kv : jsstring * jsstring =>
                negb (bool_decide (kv.1 ∈ map name_text fields)) in
  List.filter kept (searchParams (handleFilterChange fields u))
  = List.filter kept (searchParams u)
  /\ before_query (handleFilterChange fields u) = before_query u
  /\ fragment (handleFilterChange fields u) = fragment u.
Proof.
  intros kept. split; [|done]. unfold handleFilterChange. simpl. subst kept.
  generalize (searchParams u) as l.
  assert (G : forall (fs : list control) (names : list jsstring) l,
            (forall f, In f fs -> name_text f ∈ names) ->
            List.filter (fun kv => negb (bool_decide (kv.1 ∈ names)))
              (fold_left filter_step fs l)
            = List.filter (fun kv => negb (bool_decide (kv.1 ∈ names))) l).
  { induction fs as [|f fs IH]; intros names l Hin; simpl; [done|].
    rewrite IH by (intros; apply Hin; by right).
    assert (HQ : (fun k => negb (bool_decide (k ∈ names))) (name_text f) = false).
    { cbn beta. rewrite bool_decide_eq_true_2; [done|]. apply Hin. by left. }
    exact (filter_step_other (fun k => negb (bool_decide (k ∈ names))) l f HQ). }
  intros l. apply G. intros f Hf. apply list_elem_of_In. by apply in_map.
Qed.

Lemma fold_filter_step_named (fs : list control) (f : control)
  (l : list (jsstring * jsstring)) :
  List.NoDup (map name_text fs) -> In f fs ->
  List.filter (named (name_text f)) (fold_left filter_step fs l) = asked f.
Proof.
  revert l. induction fs as [|x fs IH]; intros l Hnd Hin; [done|].
  inversion Hnd as [|? ? Hnotin Hnd']; subst. simpl.
  destruct Hin as [->|Hin]; [|by apply IH].
  clear IH. revert Hnotin. generalize (filter_step_named l f).
  generalize (filter_step l f) as l'. clear.
  induction fs as [|y fs IH]; intros l' Hl' Hnotin; simpl; [done|].
  apply IH; [|intros ?; apply Hnotin; by right].
  rewrite <- Hl'.
  assert (HQ : (fun k => bool_decide (k = name_text f)) (name_text y) = false).
  { apply bool_decide_eq_false_2. intros E. apply Hnotin. left. done. }
  exact (filter_step_other (fun k => bool_decide (k = name_text f)) l' y HQ).
Qed.

(** When no two fields of the form share a name, each field decides the
    parameter of its name (absent for a falsy value, present once with
    the text of the value otherwise), and changing the filter again
    without touching the form leads to the same location. *)
Theorem handleFilterChange_settles (fields : list control) (u : URL) :
  List.NoDup (map name_text fields) ->
  (forall f, In f fields ->
     List.filter (named (name_text f)) (searchParams (handleFilterChange fields u))
     = asked f)
  /\ handleFilterChange fields (handleFilterChange fields u)
     = handleFilterChange fields u.
Proof.
  intros Hnd.
  assert (Hall : forall f, In f fields ->
            List.filter (named (name_text f)) (fold_left filter_step fields (searchParams u))
            = asked f) by (intros; by apply fold_filter_step_named).
  split; [exact Hall|].
  unfold handleFilterChange, with_params. simpl. f_equal.
  revert Hall. generalize (fold_left filter_step fields (searchParams u)) as l.
  intros l Hall.
  assert (G : forall fs, (forall f, In f fs -> In f fields) ->
            fold_left filter_step fs l = l).
  { induction fs as [|f fs IH]; intros Hsub; simpl; [done|].
    rewrite filter_step_fixed by (apply Hall, Hsub; by left).
    apply IH. intros; apply Hsub; by right. }
  by apply G.
Qed.

Lemma handleFilterChange_settles_witness :
  (forall f, In f filter_form ->
     List.filter (named (name_text f))
       (searchParams (handleFilterChange filter_form catalogue_url))
     = asked f)
  /\ handleFilterChange filter_form (handleFilterChange filter_form catalogue_url)
     = handleFilterChange filter_form catalogue_url.
Proof.
  apply (handleFilterChange_settles filter_form catalogue_url).
  apply NoDup_ListNoDup. apply (bool_decide_unpack _). by vm_compute.
Defined.

(** With two fields of one name the order of the parameters can change
    from one run to the next. *)
Example handleFilterChange_shared_name :
  let fields := [ {| field_name := Some (utf16 "a"); field_value := ValText [] |};
                  {| field_name := Some (utf16 "a"); field_value := ValText (utf16 "1") |};
                  {| field_name := Some (utf16 "b"); field_value := ValText (utf16 "2") |} ] in
  let u := {| before_query := []; searchParams := []; fragment := [] |} in
  searchParams (handleFilterChange fields u) = [(utf16 "a", utf16 "1"); (utf16 "b", utf16 "2")]
  /\ searchParams (handleFilterChange fields (handleFilterChange fields u))
     = [(utf16 "b", utf16 "2"); (utf16 "a", utf16 "1")].
Proof. by vm_compute. Qed.

Example handleFilterChange_sample :
  searchParams (handleFilterChange filter_form catalogue_url)
  = [(utf16 "page", utf16 "2"); (utf16 "sort", utf16 "price");
     (utf16 "sort", utf16 "name"); (utf16 "brand", utf16 "acme");
     (utf16 "undefined", utf16 "on"); (utf16 "ram", utf16 "4,8")].
Proof. by vm_compute. Qed.

End BrowserFacts.

(* ===================================================================== *)
(** * More on the handlers of main.js                                    *)
(* ===================================================================== *)

Module Callbacks.
Import JS.

(** ** After a successful add *)

(** After an answer that reports success, the button is given the
    "added" look and a timeout of 2000 ms is set; when that fires the
    button has its label and the class [btn-primary] back, but it is
    still disabled and still carries [loading]: nothing on the success
    path enables it again. *)
Theorem addToCart_success_button (tok : value) (this : N) (closest : option N)
  (p : page) (b : element) (r : response) :
  elements p !! this = Some b ->
  truthy (prop r "success") = true ->
  let p1 := handleAddToCart tok this closest p in
  exists req,
    requests p1 = requests p ++ [req]
    /\ let p2 := complete req (Success r) p1 in
       In (2000, RestoreLabel this (html b)) (timers p2)
       /\ exists b3,
            elements (run_timer (RestoreLabel this (html b)) p2) !! this = Some b3
            /\ html b3 = html b
            /\ disabled b3 = true
            /\ "loading" ∈ classes b3
            /\ "btn-primary" ∈ classes b3
            /\ "btn-success" ∉ classes b3.
Proof.
  intros Hb Hs p1.
  assert (H1 : elements p1 !! this = Some (in_flight b))
    by (subst p1; by rewrite Handlers.handleAddToCart_button, Hb).
  assert (Hhtml : get_html this p = html b) by (unfold get_html; by rewrite Hb).
  eexists. split; [apply Handlers.handleAddToCart_requests|]. clearbody p1.
  unfold complete, success. cbn [on_done add_to_cart_request].
  unfold addToCart_success. rewrite Hs, Hhtml. cbv zeta. split.
  - simpl. apply in_app_iff. right. by left.
  - eexists. split.
    + simpl. rewrite !lookup_alter_eq, H1. simpl. reflexivity.
    + simpl. repeat split.
      * apply elem_of_union. left. apply elem_of_difference. split.
        -- apply elem_of_union. left. apply elem_of_difference. split.
           ++ apply elem_of_union. right. by apply elem_of_singleton.
           ++ by intros ?%elem_of_singleton.
        -- by intros ?%elem_of_singleton.
      * apply elem_of_union. right. by apply elem_of_singleton.
      * intros H. apply elem_of_union in H as [H|H].
        -- apply elem_of_difference in H as [_ H]. apply H. by apply elem_of_singleton.
        -- by apply elem_of_singleton in H.
Qed.

Lemma addToCart_success_button_witness :
  let r := {| props := {[ "success" := Bool true ]}; products := []; brands := [] |} in
  let b := node ["btn"; "btn-primary"; "add-to-cart"] "В корзину"
             [("product-id", Num (Int 42))] "" in
  let p1 := handleAddToCart sample_token 1 None sample_page in
  exists req,
    requests p1 = requests sample_page ++ [req]
    /\ let p2 := complete req (Success r) p1 in
       In (2000, RestoreLabel 1 (html b)) (timers p2)
       /\ exists b3,
            elements (run_timer (RestoreLabel 1 (html b)) p2) !! 1%N = Some b3
            /\ html b3 = html b
            /\ disabled b3 = true
            /\ "loading" ∈ classes b3
            /\ "btn-primary" ∈ classes b3
            /\ "btn-success" ∉ classes b3.
Proof.
  intros r b.
  exact (addToCart_success_button sample_token 1 None sample_page b r eq_refl eq_refl).
Defined.

(** ** What the callbacks send *)

Lemma issued_showNotification (m : value) (t : string) (p q : page) :
  requests q = requests p -> issued p (showNotification m t q) = [].
Proof. intros H. by apply Handlers.issued_same. Qed.

(** The only request a callback ever sends is the GET that refreshes the
    cart counter, and only after an add that the server reports as
    successful: no failed request is sent again. *)
Theorem callbacks_only_refresh_counter (req r : request) (o : outcome) (p : page) :
  In r (issued p (complete req o p)) ->
  r = {| url := CART_COUNT_URL; method := "GET"; data := [];
         on_done := CartCountCallbacks |}
  /\ exists button originalText resp,
       on_done req = AddToCartCallbacks button originalText
       /\ o = Success resp /\ truthy (prop resp "success") = true.
Proof.
  destruct o as [resp|], req as [u m d [button originalText|button|button| | | |]];
    unfold complete, success, error; cbn [on_done];
    unfold addToCart_success, addToCart_error, wishlist_success,
           compare_success, reload_or_notify, displaySearchSuggestions;
    repeat (match goal with |- context [if ?c then _ else _] => destruct c eqn:? end);
    try match goal with |- context [match ?h with [] => _ | _ => _ end] => destruct h end;
    try (rewrite Handlers.issued_same by done; intros []).
  rewrite (Handlers.issued_app _ _
             [ {| url := CART_COUNT_URL; method := "GET"; data := [];
                  on_done := CartCountCallbacks |} ]) by done.
  intros [<-|[]]. split; [done|]. by exists button, originalText, resp.
Qed.

Lemma callbacks_only_refresh_counter_witness :
  let resp := {| props := {[ "success" := Bool true ]}; products := []; brands := [] |} in
  let req := add_to_cart_request sample_token (Num (Int 42)) (Num (Int 1)) 1 [] in
  let r := {| url := CART_COUNT_URL; method := "GET"; data := [];
              on_done := CartCountCallbacks |} in
  r = r
  /\ exists button originalText resp',
       on_done req = AddToCartCallbacks button originalText
       /\ Success resp = Success resp' /\ truthy (prop resp' "success") = true.
Proof.
  intros resp req r.
  apply (callbacks_only_refresh_counter req r (Success resp) sample_page).
  vm_compute. left. reflexivity.
Defined.

(** ** One action, one request *)

(** An action of the user sends at most one request, and none only when
    a removal was asked for and the user declined it. *)
Theorem perform_at_most_one_request (tok : value) (m : mutation) (p : page) :
  (length (issued p (perform tok m p)) <= 1)%nat
  /\ (issued p (perform tok m p) = [] ->
      match m with
      | RemoveItem false _ => True
      | ClickQuantityButton false this _ =>
          num_lt (newQuantity_of_click this p) (Int 1) = true
      | ChangeQuantityInput false this _ =>
          num_lt (newQuantity_of_input this p) (Int 1) = true
      | _ => False
      end).
Proof.
  rewrite Handlers.perform_issued.
  destruct m as [this closest|itemId quantity|[] itemId
                 |[] this cartItem|[] this cartItem|this|this]; simpl;
    try (split; [lia|done]);
    match goal with
    | |- context [newQuantity_of_click ?t ?q] => destruct (newQuantity_of_click t q) as [|z]
    | |- context [newQuantity_of_input ?t ?q] => destruct (newQuantity_of_input t q) as [|z]
    end; simpl; try (split; [lia|done]);
    destruct (z <? 1); simpl; split; (lia || done).
Qed.

(** ** The wishlist button *)

(** Adding to the wishlist and removing again brings the classes of the
    button back to what they were (for a button that showed "not in the
    wishlist"), leaves it enabled or disabled as it was, and shows two
    notifications. *)
Theorem wishlist_added_then_removed (this : N) (p : page) (b : element)
  (r1 r2 : response) :
  elements p !! this = Some b ->
  prop r1 "status" = Str (utf16 "added") ->
  prop r2 "status" = Str (utf16 "removed") ->
  "btn-outline-danger" ∈ classes b -> "btn-danger" ∉ classes b ->
  let p1 := success (WishlistCallbacks this) r1 p in
  let p2 := success (WishlistCallbacks this) r2 p1 in
  (exists b1, elements p1 !! this = Some b1
              /\ "btn-danger" ∈ classes b1 /\ "btn-outline-danger" ∉ classes b1)
  /\ (exists b2, elements p2 !! this = Some b2
                 /\ classes b2 = classes b /\ disabled b2 = disabled b)
  /\ length (notifications p2) = S (S (length (notifications p))).
Proof.
  intros Hb H1 H2 Hin Hnotin p1 p2. subst p1 p2.
  unfold success, wishlist_success. rewrite H1, H2.
  rewrite bool_decide_eq_true_2 by done.
  rewrite (bool_decide_eq_false_2 (Str (utf16 "removed") = Str (utf16 "added")))
    by (by vm_compute).
  rewrite bool_decide_eq_true_2 by done.
  split; [|split].
  - eexists. split; [simpl; rewrite !lookup_alter_eq, Hb; reflexivity|]. simpl. split.
    + apply elem_of_union. right. by apply elem_of_singleton.
    + intros H. apply elem_of_union in H as [H|H].
      * apply elem_of_difference in H as [_ H]. apply H. by apply elem_of_singleton.
      * by apply elem_of_singleton in H.
  - eexists. split; [simpl; rewrite !lookup_alter_eq, Hb; reflexivity|]. simpl.
    split; [|done]. apply set_eq. intros x.
    rewrite !elem_of_union, !elem_of_difference, !elem_of_union, !elem_of_difference,
      !elem_of_singleton.
    split.
    + intros [[[[Hx _]|Hx] Hne]| ->]; done.
    + intros Hx. destruct (decide (x = "btn-outline-danger")) as [->|Hne]; [by right|].
      left. split; [|by intros ->]. left. split; [done|done].
  - simpl. rewrite !length_app. simpl. lia.
Qed.

Lemma wishlist_added_then_removed_witness :
  let b := node ["btn"; "btn-outline-danger"] "" [] "" in
  let p := {| elements := {[ 1%N := b ]}; notifications := [];
              suggestions_visible := false; suggestions_html := [];
              cart_count := undefined; timers := []; requests := []; reloads := 0 |} in
  let r1 := {| props := {[ "status" := Str (utf16 "added") ]}; products := []; brands := [] |} in
  let r2 := {| props := {[ "status" := Str (utf16 "removed") ]}; products := []; brands := [] |} in
  let p1 := success (WishlistCallbacks 1) r1 p in
  let p2 := success (WishlistCallbacks 1) r2 p1 in
  (exists b1, elements p1 !! 1%N = Some b1
              /\ "btn-danger" ∈ classes b1 /\ "btn-outline-danger" ∉ classes b1)
  /\ (exists b2, elements p2 !! 1%N = Some b2
                 /\ classes b2 = classes b /\ disabled b2 = disabled b)
  /\ length (notifications p2) = S (S (length (notifications p))).
Proof.
  intros b p r1 r2.
  apply (wishlist_added_then_removed 1 p b r1 r2); try reflexivity;
    apply (bool_decide_unpack _); by vm_compute.
Defined.

(** ** Suggestions and notifications *)

Lemma suggestion_group_nil (title prefix : string) (l : list suggestion) :
  suggestion_group title prefix l = [] <-> l = [].
Proof.
  split; [|by intros ->]. destruct l as [|x l]; [done|].
  unfold suggestion_group. intros H.
  apply app_eq_nil in H as [_ H]. apply app_eq_nil in H as [_ H].
  by vm_compute in H.
Qed.

(** The suggestion box is shown after an answer exactly when the answer
    lists at least one product or brand; otherwise it is hidden and its
    content is left as it was. *)
Theorem displaySearchSuggestions_visible (r : response) (p : page) :
  let p' := displaySearchSuggestions r p in
  (suggestions_visible p' = true <-> products r <> [] \/ brands r <> [])
  /\ (products r = [] -> brands r = [] ->
      suggestions_visible p' = false /\ suggestions_html p' = suggestions_html p).
Proof.
  intros p'. subst p'. unfold displaySearchSuggestions.
  destruct (suggestion_group "Товары" "/catalog/product/" (products r)
            ++ suggestion_group "Бренды" "/catalog/brand/" (brands r)) as [|c h] eqn:E.
  - apply app_eq_nil in E as [E1 E2].
    apply suggestion_group_nil in E1, E2.
    split; [|done]. split; [done|]. intros [?|?]; done.
  - simpl. split.
    + split; [|done]. intros _.
      destruct (products r) as [|x l]; [|by left]. right.
      destruct (brands r); [|done]. by vm_compute in E.
    + intros H1 H2. rewrite H1, H2 in E. by vm_compute in E.
Qed.

(** The timeout that [showNotification] sets (5000 ms) removes the
    notification just shown and no other. *)
Theorem showNotification_fades (msg : value) (type : string) (p : page) :
  let p1 := showNotification msg type p in
  let index := length (notifications p) in
  timers p1 = timers p ++ [(5000, FadeOutNotification index)]
  /\ notifications p1
     = notifications p ++ [ {| message := msg; kind := "alert-" +:+ type; removed := false |} ]
  /\ notifications (run_timer (FadeOutNotification index) p1)
     = notifications p ++ [ {| message := msg; kind := "alert-" +:+ type; removed := true |} ].
Proof.
  intros p1 index. subst p1 index. split; [done|]. split; [done|].
  unfold run_timer, showNotification. simpl.
  rewrite alter_app_r_alt by lia. by rewrite Nat.sub_diag.
Qed.

(** ** The quantity buttons *)

(** The increase button never asks for a removal when the current
    quantity is not negative (and below 2^53, where the numbers of the
    script are exact): it sends the update request with the quantity
    plus one, and with 2 when the current quantity is 0 or cannot be read
    (both count as 1). *)
Theorem increase_sends_update (tok : value) (confirmed : bool) (this : N)
  (cartItem : option N) (p : page) :
  hasClass this "increase-btn" p = true ->
  match parseInt_value (get_data (Some this) "current-qty" p) with
  | Int z => 0 <= z < 2 ^ 53
  | NaN => True
  end ->
  issued p (handleQuantityChange tok confirmed this cartItem p)
  = [update_request tok (item_id_of cartItem p)
       match parseInt_value (get_data (Some this) "current-qty" p) with
       | Int z => Int (if z =? 0 then 2 else z + 1)
       | NaN => Int 2
       end].
Proof.
  intros Hinc Hq. apply Handlers.issued_app.
  unfold handleQuantityChange. rewrite Handlers.quantity_branch.
  unfold newQuantity_of_click, currentQuantity_of. rewrite Hinc.
  destruct (parseInt_value _) as [|z]; simpl; [done|].
  destruct (z =? 0) eqn:E; simpl; [done|].
  apply Z.eqb_neq in E.
  assert (Hz : (z + 1 <? 1) = false) by (apply Z.ltb_ge; lia). by rewrite Hz.
Qed.

Lemma increase_sends_update_witness :
  issued sample_page (handleQuantityChange sample_token false 4 (Some 2%N) sample_page)
  = [update_request sample_token (Num (Int 9)) (Int 2)].
Proof.
  apply (increase_sends_update sample_token false 4 (Some 2%N) sample_page).
  - reflexivity.
  - vm_compute. split; [discriminate|reflexivity].
Defined.

(** A quantity field whose text does not start with a number is neither
    removed nor rejected: the update request is sent with NaN. *)
Lemma quantity_input_not_a_number_witness :
  issued sample_page (handleQuantityInputChange sample_token true 6 (Some 2%N) sample_page)
  = [update_request sample_token (Num (Int 9)) NaN].
Proof.
  exact (Handlers.quantity_input_not_a_number sample_token true 6 (Some 2%N)
           sample_page eq_refl).
Defined.

Lemma perform_at_most_one_request_witness :
  (length (issued sample_page
             (perform sample_token (RemoveItem false (Num (Int 9))) sample_page)) <= 1)%nat
  /\ (issued sample_page (perform sample_token (RemoveItem false (Num (Int 9))) sample_page)
      = [] -> True).
Proof.
  exact (perform_at_most_one_request sample_token (RemoveItem false (Num (Int 9)))
           sample_page).
Defined.

Lemma displaySearchSuggestions_visible_witness :
  let r := {| props := ∅; products := []; brands := [] |} in
  suggestions_visible (displaySearchSuggestions r sample_page) = false
  /\ suggestions_html (displaySearchSuggestions r sample_page)
     = suggestions_html sample_page.
Proof.
  intros r.
  exact (proj2 (displaySearchSuggestions_visible r sample_page) eq_refl eq_refl).
Defined.


End Callbacks.

(* ===================================================================== *)
(** * Examples for the reports and the trigger                           *)
(* ===================================================================== *)

Module ReportExamples.
Import SQL Reports.

Lemma GetPopularProducts_ignores_days_back_witness :
  GetPopularProducts old_order_db sample_now 30 10
  = GetPopularProducts old_order_db sample_now 365 10.
Proof.
  apply (Popular.GetPopularProducts_ignores_days_back old_order_db sample_now 30 365 10).
  vm_compute. apply NoDup_ListNoDup. apply (bool_decide_unpack _). by vm_compute.
Defined.

Lemma GetPopularProducts_active_witness :
  exists p, In p (products old_order_db) /\ is_active p = true /\ 7 = id p.
Proof.
  apply (Popular.GetPopularProducts_active old_order_db sample_now 30 10
           {| pp_id := 7; pp_name := "pixel"; pp_slug := "pixel"; pp_price := 1999000;
              pp_old_price := None; pp_rating := 0; pp_reviews_count := 0;
              pp_category_name := "phones"; pp_brand_name := "acme";
              orders_count := 1; total_sold := Some 3 |}).
  vm_compute. left. reflexivity.
Defined.

(** An order that had no status yet is not logged when it gets one. *)
Lemma order_status_change_log_null_witness :
  order_status_change_log unicode_ci_eqb 77 no_status_order shipped_order [] = [].
Proof.
  apply (OrderLog.order_status_change_log_null unicode_ci_eqb 77). left. reflexivity.
Defined.

End ReportExamples.
